(** * BotCoreBot memory API: a shallow embedding and its properties

    The development follows the TypeScript sources:
    - [src/lib/memory.ts]   : the per-user memory service (recall, store,
                              consolidate) over a SQLite file;
    - [src/lib/supabase.ts] : API-key validation, usage log, quota check;
    - [src/lib/auth.ts]     : bearer-token extraction and the [withAuth] wrapper;
    - [src/app/api/v1/memory/*/route.ts] : the HTTP route handlers.

    Modelling conventions.
    - SQLite [REAL] columns and JavaScript numbers are exact rationals ([Q]);
      every property below is about order and membership, none about rounding.
    - The [memories] table has [id TEXT PRIMARY KEY]: it is a finite map from
      the id to the remaining columns.
    - The FTS5 index, the [LIKE] operator and the JSON codec belong to SQLite
      and to the JavaScript runtime: they are operations of a class without
      laws, so that every theorem holds whatever they compute.
    - Clock readings and fresh UUIDs are arguments of the operations.
    - [MemoryService.stats] only reads the table; it is [Statistics.stats]. *)

From Stdlib Require Import QArith Qpower Qminmax Lqa ZArith Ascii String.
From stdpp Require Import gmap strings list sorting pretty.

Local Open Scope Z_scope.

(** ** JavaScript values *)

(** The result of [request.json()], and any value read out of it. *)
#[warnings="-register-all"]
Inductive JsVal :=
  | JUndefined
  | JNull
  | JBool (b : bool)
  | JNum (q : Q)
  | JStr (s : string)
  | JArr (l : list JsVal)
  | JObj (l : list (string * JsVal)).

(** Truthiness, as used by [!x], [x && y] and [x ? a : b]. *)
Definition truthy (v : JsVal) : bool :=
  match v with
  | JUndefined | JNull => false
  | JBool b => b
  | JNum q => negb (Qeq_bool q 0)
  | JStr s => negb (String.eqb s "")
  | JArr _ | JObj _ => true
  end.

Fixpoint assoc_get (k : string) (l : list (string * JsVal)) : JsVal :=
  match l with
  | [] => JUndefined
  | (k', v) :: l' => if String.eqb k k' then v else assoc_get k l'
  end.

(** Property read [v.k]. Reading a property of [null] or [undefined] throws a
    [TypeError] ([None]); on other primitives and on arrays the named
    properties used by the routes are absent. *)
Definition get_prop (v : JsVal) (k : string) : option JsVal :=
  match v with
  | JUndefined | JNull => None
  | JObj l => Some (assoc_get k l)
  | _ => Some JUndefined
  end.

(** [s || undefined] on a nullable string column. *)
Definition or_undefined (s : option string) : option string :=
  match s with
  | Some s' => if String.eqb s' "" then None else Some s'
  | None => None
  end.

(** Outcome of a call that may throw. *)
Inductive outcome (A : Type) :=
  | Returned (a : A)
  | Thrown (msg : string).
Arguments Returned {A} a.
Arguments Thrown {A} msg.

(** ** The memory store ([src/lib/memory.ts]) *)

(** A row of [memories] without its primary key. [type] is a nullable TEXT
    column; [metadata] holds the serialised JSON. *)
Record MemoryRow := mkRow {
  content : string;
  type : option string;
  importance : Q;
  activation : Q;
  created_at : string;
  last_accessed : option string;
  metadata : option string
}.

(** The [Memory] objects returned to the caller. *)
Module Memory.
Record t := mk {
  id : string;
  content : string;
  type : option string;
  importance : Q;
  activation : Q;
  created_at : string;
  last_accessed : option string;
  metadata : option JsVal
}.
End Memory.

(** What the model takes from SQLite and from the JavaScript runtime. *)
Class Runtime := {
  (** state of the [memories_fts] virtual table *)
  FtsIndex : Type;
  (** the index right after [CREATE VIRTUAL TABLE] *)
  fts_new : FtsIndex;
  (** [SELECT COUNT( * ) FROM memories_fts] *)
  fts_count : FtsIndex → gmap string MemoryRow → Z;
  (** the rows of [memories] that the join with [memories_fts MATCH ?]
      keeps; [None] when FTS5 rejects the query string *)
  fts_match : FtsIndex → string → option (string → MemoryRow → bool);
  (** the [memories_ai] trigger *)
  fts_after_insert : FtsIndex → string → MemoryRow → FtsIndex;
  (** the [INSERT OR IGNORE INTO memories_fts] of [store], errors swallowed *)
  fts_insert_or_ignore : FtsIndex → string → MemoryRow → FtsIndex;
  (** the [memories_ad] trigger *)
  fts_after_delete : FtsIndex → string → MemoryRow → FtsIndex;
  (** [text LIKE pattern] *)
  sql_like : string → string → bool;
  (** text stored in a TEXT column for a bound number *)
  sql_text_of_number : Q → string;
  JSON_stringify : JsVal → string;
  (** [None]: [JSON.parse] throws a [SyntaxError] *)
  JSON_parse : string → option JsVal;
  (** [hashApiKey]: hexadecimal SHA-256 digest *)
  sha256_hex : string → string;
  (** [parseInt(s)]; [None] is [NaN] *)
  parseInt : string → option Z;
  (** [String(v)], as in a template literal *)
  js_to_string : JsVal → string
}.

Section MemoryService.
Context `{RT : Runtime}.

(** One user's [engram.db]. *)
Record Db := mkDb {
  memories : gmap string MemoryRow;
  memories_fts : FtsIndex
}.

(** The database file as [getDb] creates it. *)
Definition new_db : Db := {| memories := ∅; memories_fts := fts_new |}.

(** The storage root: one database per user id ([getDbPath]). *)
Definition Stores := gmap string Db.

(** [getDb]: opens the user's file, creating it with the schema if absent. *)
Definition getDb (userId : string) (st : Stores) : Db :=
  default new_db (st !! userId).

#[global] Instance Qlt_decision : RelDecision Qlt :=
  λ x y, match Qlt_le_dec x y with
         | left H => left H
         | right H => right (Qle_not_lt _ _ H)
         end.

#[global] Instance Qle_decision : RelDecision Qle :=
  λ x y, match Qlt_le_dec y x with
         | left H => right (Qlt_not_le _ _ H)
         | right H => left H
         end.

(** Constants of the decay model. *)
Definition BOOST : Q := 11 # 10.
Definition DECAY : Q := 95 # 100.
Definition FORGET_THRESHOLD : Q := 1 # 100.

(** [type IN (?, ..., ?)]: a NULL type is in no list. *)
Definition type_in (types : list string) (r : MemoryRow) : bool :=
  match type r with
  | Some t => bool_decide (t ∈ types)
  | None => false
  end.

(** [if (types && types.length > 0)] adds the [IN] restriction. *)
Definition type_filter (types : option (list string)) (r : MemoryRow) : bool :=
  match types with
  | Some (t :: ts) => type_in (t :: ts) r
  | _ => true
  end.

(** [ORDER BY activation DESC]. SQLite leaves the order of ties open; the
    model sorts the listing of the table with a merge sort. *)
Definition activation_desc (x y : string * MemoryRow) : Prop :=
  (activation y.2 <= activation x.2)%Q.

#[global] Instance activation_desc_dec : RelDecision activation_desc :=
  λ x y, Qle_decision (activation y.2) (activation x.2).

Definition order_by_activation_desc (rows : list (string * MemoryRow)) :
    list (string * MemoryRow) :=
  merge_sort activation_desc rows.

(** A bound number used as [LIMIT ?]: it must convert to a 64-bit integer
    without loss, otherwise SQLite raises [datatype mismatch]. *)
Definition to_integer (q : Q) : option Z :=
  let r := Qred q in
  if decide (Qden r = 1%positive ∧ - 2 ^ 63 ≤ Qnum r < 2 ^ 63)
  then Some (Qnum r) else None.

(** [LIMIT n]: a negative [n] means no upper bound. *)
Definition sql_limit {A} (n : Z) (rows : list A) : list A :=
  if decide (n < 0) then rows else take (Z.to_nat n) rows.

(** [SELECT ... FROM memories WHERE <keep> ORDER BY activation DESC LIMIT ?]. *)
Definition select_rows (keep : string → MemoryRow → bool) (n : Z) (db : Db) :
    list (string * MemoryRow) :=
  sql_limit n (order_by_activation_desc
                 (filter (λ kv, keep kv.1 kv.2) (map_to_list (memories db)))).

(** The [UPDATE] of [recall] on one row. *)
Definition touch (now : string) (r : MemoryRow) : MemoryRow :=
  {| content := content r; type := type r; importance := importance r;
     activation := Qmin (activation r * BOOST) 1;
     created_at := created_at r;
     last_accessed := Some now;
     metadata := metadata r |}.

(** [updateStmt.run(now, row.id)] for every selected row, in order. *)
Definition touch_all (now : string) (rows : list (string * MemoryRow))
    (m : gmap string MemoryRow) : gmap string MemoryRow :=
  foldl (λ acc kv, alter (touch now) kv.1 acc) m rows.

(** One element of [rows.map(row => ...)]. *)
Definition to_memory (kv : string * MemoryRow) : option Memory.t :=
  let r := kv.2 in
  match
    match metadata r with
    | Some s => if String.eqb s "" then Some None else Some <$> JSON_parse s
    | None => Some None
    end
  with
  | Some md =>
      Some {| Memory.id := kv.1;
              Memory.content := content r;
              Memory.type := type r;
              Memory.importance := importance r;
              Memory.activation := activation r;
              Memory.created_at := created_at r;
              Memory.last_accessed := or_undefined (last_accessed r);
              Memory.metadata := md |}
  | None => None
  end.

Record RecallResponse := mkRecall {
  results : list Memory.t;
  took_ms : Z
}.

(** The search statement of [recall]: the rows it reads, or the SQL error. *)
Definition search (query : string) (limit : Q) (types : option (list string))
    (db : Db) : option (list (string * MemoryRow)) :=
  if decide (0 < fts_count (memories_fts db) (memories db)) then
    m ← fts_match (memories_fts db) query;
    n ← to_integer limit;
    Some (select_rows (λ k r, m k r && type_filter types r) n db)
  else
    n ← to_integer limit;
    Some (select_rows
            (λ k r, sql_like ("%" +:+ query +:+ "%") (content r)
                    && type_filter types r) n db).

(** [MemoryService.recall] on the user's database. [now] is
    [new Date().toISOString()], [t0] and [t1] the two [Date.now()] readings.
    The caller passes the limit (the route always does; the default 10 of an
    omitted argument is the caller's [10]). *)
Definition recall (now : string) (t0 t1 : Z)
    (query : string) (limit : Q) (types : option (list string)) (db : Db) :
    Db * outcome RecallResponse :=
  match search query limit types db with
  | None => (db, Thrown "SqliteError")
  | Some rows =>
      let db' := {| memories := touch_all now rows (memories db);
                    memories_fts := memories_fts db |} in
      match mapM to_memory rows with
      | Some res => (db', Returned {| results := res; took_ms := t1 - t0 |})
      | None => (db', Thrown "SyntaxError")
      end
  end.

Record StoreResponse := mkStore {
  store_id : string;
  success : bool
}.

(** A JavaScript value bound to the TEXT column [type]: better-sqlite3 binds
    numbers, strings and [null], and throws a [TypeError] on the rest. *)
Definition bind_text (v : JsVal) : option (option string) :=
  match v with
  | JNull => Some None
  | JStr s => Some (Some s)
  | JNum q => Some (Some (sql_text_of_number q))
  | _ => None
  end.

(** [MemoryService.store]. [uuid] is [crypto.randomUUID()], [now] the ISO
    time stamp. A parameter left [undefined] takes its default. *)
Definition store (uuid now : string)
    (content0 : string) (type0 : JsVal) (importance0 : option Q)
    (metadata0 : JsVal) (db : Db) : Db * outcome StoreResponse :=
  let ty := match type0 with JUndefined => JStr "factual" | v => v end in
  let imp := default (5 # 10)%Q importance0 in
  match bind_text ty with
  | None => (db, Thrown "TypeError")
  | Some ty' =>
      match memories db !! uuid with
      | Some _ => (db, Thrown "SqliteError")
      | None =>
          let row := {| content := content0; type := ty'; importance := imp;
                        activation := 1; created_at := now;
                        last_accessed := None;
                        metadata := if truthy metadata0
                                    then Some (JSON_stringify metadata0)
                                    else None |} in
          let fts1 := fts_after_insert (memories_fts db) uuid row in
          let fts2 := fts_insert_or_ignore fts1 uuid row in
          ({| memories := <[uuid := row]> (memories db);
              memories_fts := fts2 |},
           Returned {| store_id := uuid; success := true |})
      end
  end.

Record ConsolidateStats := mkStats {
  memories_before : Z;
  memories_after : Z;
  merged : Z;
  forgotten : Z
}.

Record ConsolidateResponse := mkConsolidate {
  consolidated : bool;
  stats : ConsolidateStats
}.

(** [SET activation = a] on one row. *)
Definition with_activation (a : Q) (r : MemoryRow) : MemoryRow :=
  {| content := content r; type := type r; importance := importance r;
     activation := a;
     created_at := created_at r; last_accessed := last_accessed r;
     metadata := metadata r |}.

(** [UPDATE memories SET activation = activation * 0.95 WHERE activation > 0.01]
    on one row. *)
Definition decay (r : MemoryRow) : MemoryRow :=
  if decide (FORGET_THRESHOLD < activation r)%Q
  then with_activation (activation r * DECAY) r
  else r.

(** The [WHERE] clause of the [DELETE]. *)
Definition is_forgotten (r : MemoryRow) : Prop :=
  (activation r < FORGET_THRESHOLD)%Q.

#[global] Instance is_forgotten_dec r : Decision (is_forgotten r) :=
  Qlt_decision _ _.

(** [MemoryService.consolidate]. [forgotten.changes] counts the rows the
    [DELETE] removed; the [memories_ad] trigger runs for each of them. *)
Definition consolidate (db : Db) : Db * ConsolidateResponse :=
  let beforeCount := Z.of_nat (size (memories db)) in
  let decayed := decay <$> memories db in
  let deleted := filter (λ kv, is_forgotten kv.2) decayed in
  let kept := filter (λ kv, ¬ is_forgotten kv.2) decayed in
  let fts' := foldl (λ i kv, fts_after_delete i kv.1 kv.2)
                    (memories_fts db) (map_to_list deleted) in
  let afterCount := Z.of_nat (size kept) in
  ({| memories := kept; memories_fts := fts' |},
   {| consolidated := true;
      stats := {| memories_before := beforeCount;
                  memories_after := afterCount;
                  merged := 0;
                  forgotten := Z.of_nat (size deleted) |} |}).

(** An operation run on the user's file: [getDb] before, the file as the
    operation leaves it after ([db.close()] in the [finally]). *)
Definition on_user_db {A} (userId : string) (op : Db → Db * A) (st : Stores) :
    Stores * A :=
  let '(db', a) := op (getDb userId st) in (<[userId := db']> st, a).

(** The object [getMemoryService(userId)] returns, as the routes use it. *)
Record MemoryService := mkService {
  svc_recall : string → Q → option (list string) →
               Stores → Stores * outcome RecallResponse;
  svc_store : string → JsVal → option Q → JsVal →
              Stores → Stores * outcome StoreResponse;
  svc_consolidate : Stores → Stores * outcome ConsolidateResponse
}.

(** What a request reads from its surroundings: a fresh UUID, the ISO time
    stamp and the clock readings around [recall]. *)
Record Ambient := mkAmbient {
  amb_uuid : string;
  amb_iso_now : string;
  amb_t0 : Z;
  amb_t1 : Z
}.

Definition getMemoryService (amb : Ambient) (userId : string) : MemoryService :=
  {| svc_recall := λ query limit types,
       on_user_db userId
         (recall (amb_iso_now amb) (amb_t0 amb) (amb_t1 amb) query limit types);
     svc_store := λ content0 type0 importance0 metadata0,
       on_user_db userId
         (store (amb_uuid amb) (amb_iso_now amb)
                content0 type0 importance0 metadata0);
     svc_consolidate :=
       on_user_db userId (λ db, let '(db', r) := consolidate db in
                                (db', Returned r)) |}.

(** The states of one user's database that the three operations produce,
    starting from the file [getDb] creates. *)
Inductive reachable : Db → Prop :=
  | reach_new : reachable new_db
  | reach_store uuid now c ty imp md db :
      reachable db → reachable (store uuid now c ty imp md db).1
  | reach_recall now t0 t1 query limit types db :
      reachable db → reachable (recall now t0 t1 query limit types db).1
  | reach_consolidate db :
      reachable db → reachable (consolidate db).1.

(** A call that does not create records. *)
Inductive Call :=
  | CallRecall (now : string) (t0 t1 : Z) (query : string) (limit : Q)
               (types : option (list string))
  | CallConsolidate.

Definition run_call (db : Db) (c : Call) : Db :=
  match c with
  | CallRecall now t0 t1 query limit types =>
      (recall now t0 t1 query limit types db).1
  | CallConsolidate => (consolidate db).1
  end.

Definition run_calls (cs : list Call) (db : Db) : Db := foldl run_call db cs.

(** The columns that [store] writes and no statement updates. *)
Definition static_columns (r : MemoryRow) :
    string * option string * Q * option string * string :=
  (content r, type r, importance r, metadata r, created_at r).

End MemoryService.

(** ** Strings and responses *)

(** [s.split(sep)] for a one-character separator. *)
Fixpoint js_split (sep : ascii) (s : string) : list string :=
  match s with
  | EmptyString => [EmptyString]
  | String c s' =>
      if Ascii.eqb c sep then EmptyString :: js_split sep s'
      else match js_split sep s' with
           | w :: ws => String c w :: ws
           | [] => [String c EmptyString]
           end
  end.

Definition lower_ascii (c : ascii) : ascii :=
  let n := nat_of_ascii c in
  if decide (65 ≤ n ≤ 90)%nat then ascii_of_nat (n + 32) else c.

(** [s.toLowerCase()] on the ASCII letters. *)
Fixpoint toLowerCase (s : string) : string :=
  match s with
  | EmptyString => EmptyString
  | String c s' => String (lower_ascii c) (toLowerCase s')
  end.

(** The double-quote character, for the messages that quote a field name. *)
Definition dq : string := String "034"%char EmptyString.

(** [arr.join(', ')]. *)
Fixpoint join_comma (l : list string) : string :=
  match l with
  | [] => ""
  | [s] => s
  | s :: l' => s +:+ ", " +:+ join_comma l'
  end.

Record ApiError := mkError {
  error : string;
  code : string;
  details : option JsVal
}.

Section Http.
Context `{RT : Runtime}.

(** JSON payload of a response. *)
Inductive Body :=
  | ErrorBody (e : ApiError)
  | StoreBody (r : StoreResponse)
  | RecallBody (r : RecallResponse)
  | ConsolidateBody (r : ConsolidateResponse).

Record Response := mkResponse {
  status : Z;
  body : Body;
  headers : list (string * string)
}.

(** What the handlers read of a [NextRequest]: the [Authorization] header,
    the path of the URL, and [request.json()] ([None] when it rejects). *)
Record Request := mkRequest {
  authorization : option string;
  pathname : string;
  json : option JsVal
}.

(** The header [Response.json] appends when [init] names no content type. *)
Definition content_type_json : string * string :=
  ("content-type", "application/json").

(** [NextResponse.json(body, { status })]. *)
Definition json_response (b : Body) (st : Z) : Response :=
  {| status := st; body := b; headers := [content_type_json] |}.

Definition error_response (msg c : string) (st : Z) : Response :=
  json_response (ErrorBody {| error := msg; code := c; details := None |}) st.

(** [response.headers.set(name, value)]. *)
Definition set_header (name value : string) (r : Response) : Response :=
  {| status := status r; body := body r;
     headers := filter (λ h, toLowerCase h.1 ≠ toLowerCase name) (headers r)
                ++ [(name, value)] |}.

End Http.

(** ** Keys, usage log and quota ([src/lib/supabase.ts]) *)

Record ApiKeyRow := mkApiKey {
  key_id : string;
  key_user_id : string;
  key_hash : string;
  key_tier : string;
  key_last_used : option Z
}.

(** Time stamps of the hosted tables are milliseconds since the epoch. *)
Record UsageLogRow := mkUsage {
  log_user_id : string;
  log_endpoint : string;
  log_timestamp : Z;
  log_tokens_used : option Z
}.

(** The hosted database, and which of its queries currently answer with an
    [error] instead of data. *)
Record Supabase := mkSupabase {
  api_keys : list ApiKeyRow;
  usage_log : list UsageLogRow;
  key_select_fails : bool;
  key_update_fails : bool;
  usage_insert_fails : bool;
  usage_count_fails : bool
}.

(** [process.env]. *)
Record Env := mkEnv {
  SUPABASE_URL : option string;
  SUPABASE_SERVICE_KEY : option string;
  TEST_API_KEY : option string;
  RATE_LIMIT_FREE : option string;
  RATE_LIMIT_PRO : option string
}.

(** An environment variable is falsy when unset or empty. *)
Definition env_truthy (v : option string) : bool :=
  match v with
  | Some s => negb (String.eqb s "")
  | None => false
  end.

(** [process.env.X || d]. *)
Definition env_or (v : option string) (d : string) : string :=
  match v with
  | Some s => if String.eqb s "" then d else s
  | None => d
  end.

(** [getSupabaseAdmin]: [false] when it throws. *)
Definition getSupabaseAdmin (env : Env) : bool :=
  env_truthy (SUPABASE_URL env) && env_truthy (SUPABASE_SERVICE_KEY env).

Record AuthContext := mkAuth {
  userId : string;
  tier : string
}.

Record Validation := mkValidation {
  valid : bool;
  user : option AuthContext;
  validation_error : option string
}.

Record Quota := mkQuota {
  allowed : bool;
  (** [None] is [NaN] *)
  remaining : option Z
}.

Section Supabase.
Context `{RT : Runtime}.

Definition touch_key (now : Z) (kid : string) (k : ApiKeyRow) : ApiKeyRow :=
  if String.eqb (key_id k) kid then
    {| key_id := key_id k; key_user_id := key_user_id k;
       key_hash := key_hash k; key_tier := key_tier k;
       key_last_used := Some now |}
  else k.

Definition set_api_keys (ks : list ApiKeyRow) (sb : Supabase) : Supabase :=
  {| api_keys := ks; usage_log := usage_log sb;
     key_select_fails := key_select_fails sb;
     key_update_fails := key_update_fails sb;
     usage_insert_fails := usage_insert_fails sb;
     usage_count_fails := usage_count_fails sb |}.

Definition set_usage_log (ls : list UsageLogRow) (sb : Supabase) : Supabase :=
  {| api_keys := api_keys sb; usage_log := ls;
     key_select_fails := key_select_fails sb;
     key_update_fails := key_update_fails sb;
     usage_insert_fails := usage_insert_fails sb;
     usage_count_fails := usage_count_fails sb |}.

(** [validateApiKey]. [.single()] answers with an error unless exactly one
    row matches. *)
Definition validateApiKey (env : Env) (now : Z) (apiKey : string)
    (sb : Supabase) : Supabase * outcome Validation :=
  if env_truthy (TEST_API_KEY env)
     && bool_decide (TEST_API_KEY env = Some apiKey) then
    (sb, Returned {| valid := true;
                     user := Some {| userId := "test-user"; tier := "pro" |};
                     validation_error := None |})
  else if negb (getSupabaseAdmin env) then
    (sb, Thrown "Missing Supabase environment variables")
  else
    let keyHash := sha256_hex apiKey in
    match
      (if key_select_fails sb then []
       else filter (λ k, key_hash k = keyHash) (api_keys sb))
    with
    | [data] =>
        let sb' := if key_update_fails sb then sb
                   else set_api_keys (touch_key now (key_id data) <$> api_keys sb) sb in
        (sb', Returned {| valid := true;
                          user := Some {| userId := key_user_id data;
                                          tier := key_tier data |};
                          validation_error := None |})
    | _ =>
        (sb, Returned {| valid := false; user := None;
                         validation_error := Some "Invalid API key" |})
    end.

(** [logUsage]: the result of the insert is not looked at. *)
Definition logUsage (env : Env) (now : Z) (uid endpoint : string)
    (sb : Supabase) : outcome Supabase :=
  if negb (getSupabaseAdmin env) then
    Thrown "Missing Supabase environment variables"
  else if usage_insert_fails sb then Returned sb
  else Returned (set_usage_log
                   (usage_log sb ++
                    [{| log_user_id := uid; log_endpoint := endpoint;
                        log_timestamp := now; log_tokens_used := None |}]) sb).

(** The rows the count query of [checkQuota] counts. *)
Definition recent_usage (now : Z) (uid : string) (sb : Supabase) : Z :=
  Z.of_nat (length (filter (λ l, log_user_id l = uid ∧ now - 60000 ≤ log_timestamp l)
                           (usage_log sb))).

(** The per-tier ceiling; [None] when the table has no such tier or
    [parseInt] yields [NaN]. *)
Definition tier_limit (env : Env) (t : string) : option Z :=
  if String.eqb t "free" then parseInt (env_or (RATE_LIMIT_FREE env) "10")
  else if String.eqb t "pro" then parseInt (env_or (RATE_LIMIT_PRO env) "100")
  else if String.eqb t "enterprise" then Some 1000
  else None.

(** [checkQuota]. A comparison with [NaN] or [undefined] is false. *)
Definition checkQuota (env : Env) (now : Z) (uid t : string) (sb : Supabase) :
    outcome Quota :=
  if negb (getSupabaseAdmin env) then
    Thrown "Missing Supabase environment variables"
  else if usage_count_fails sb then
    Returned {| allowed := true; remaining := Some 0 |}
  else
    let used := recent_usage now uid sb in
    match tier_limit env t with
    | Some limit =>
        Returned {| allowed := bool_decide (used < limit);
                    remaining := Some (Z.max 0 (limit - used)) |}
    | None => Returned {| allowed := false; remaining := None |}
    end.

End Supabase.

(** ** Authentication ([src/lib/auth.ts]) *)

(** [extractBearerToken]. *)
Definition extractBearerToken (authHeader : option string) : option string :=
  match authHeader with
  | None => None
  | Some h =>
      if String.eqb h "" then None
      else match js_split " "%char h with
           | scheme :: token :: _ =>
               if negb (String.eqb (toLowerCase scheme) "bearer")
                  || String.eqb token ""
               then None else Some token
           | _ => None
           end
  end.

Section Auth.
Context `{RT : Runtime}.

Definition unauthorized (msg : string) : Response :=
  error_response msg "UNAUTHORIZED" 401.

(** [Math.ceil(Date.now() / 1000 + 60)]. *)
Definition reset_time (now : Z) : Z := - ((- now) `div` 1000) + 60.

Definition rate_limited (now : Z) (t : string) : Response :=
  {| status := 429;
     body := ErrorBody
               {| error := "Rate limit exceeded";
                  code := "RATE_LIMITED";
                  details := Some (JObj [("retry_after_seconds", JNum 60);
                                         ("tier", JStr t)]) |};
     headers := [("X-RateLimit-Remaining", "0");
                 ("X-RateLimit-Reset", pretty (reset_time now));
                 ("Retry-After", "60");
                 content_type_json] |}.

(** [authenticateRequest]: the caller's context, or the response to send. *)
Definition authenticateRequest (env : Env) (now : Z) (req : Request)
    (sb : Supabase) : Supabase * outcome (AuthContext + Response) :=
  match extractBearerToken (authorization req) with
  | None =>
      (sb, Returned (inr (unauthorized "Missing or invalid Authorization header")))
  | Some apiKey =>
      match validateApiKey env now apiKey sb with
      | (sb', Thrown e) => (sb', Thrown e)
      | (sb', Returned v) =>
          match (if valid v then user v else None) with
          | None =>
              (sb', Returned (inr (unauthorized
                                     (default "Invalid API key"
                                        (match validation_error v with
                                         | Some "" => None
                                         | o => o
                                         end)))))
          | Some u =>
              match checkQuota env now (userId u) (tier u) sb' with
              | Thrown e => (sb', Thrown e)
              | Returned quota =>
                  if allowed quota then (sb', Returned (inl u))
                  else (sb', Returned (inr (rate_limited now (tier u))))
              end
          end
      end
  end.

(** Everything a request can change. *)
Record World := mkWorld {
  supabase : Supabase;
  stores : Stores
}.

(** A route handler, as [withAuth] receives it. *)
Definition Handler := Request → AuthContext → Stores → Stores * outcome Response.

(** [remaining.toString()]. *)
Definition remaining_to_string (r : option Z) : string :=
  match r with
  | Some z => pretty z
  | None => "NaN"
  end.

(** [withAuth(handler)]. A rejection of [authenticateRequest] or of
    [logUsage] is not caught; one of the handler or of the second
    [checkQuota] becomes a 500. *)
Definition withAuth (handler : Handler) (env : Env) (now : Z) (req : Request)
    (w : World) : World * outcome Response :=
  match authenticateRequest env now req (supabase w) with
  | (sb1, Thrown e) => ({| supabase := sb1; stores := stores w |}, Thrown e)
  | (sb1, Returned (inr err)) =>
      ({| supabase := sb1; stores := stores w |}, Returned err)
  | (sb1, Returned (inl auth)) =>
      match logUsage env now (userId auth) (pathname req) sb1 with
      | Thrown e => ({| supabase := sb1; stores := stores w |}, Thrown e)
      | Returned sb2 =>
          let internal := error_response "Internal server error" "INTERNAL_ERROR" 500 in
          match handler req auth (stores w) with
          | (st', Thrown _) =>
              ({| supabase := sb2; stores := st' |}, Returned internal)
          | (st', Returned response) =>
              match checkQuota env now (userId auth) (tier auth) sb2 with
              | Thrown _ =>
                  ({| supabase := sb2; stores := st' |}, Returned internal)
              | Returned quota =>
                  ({| supabase := sb2; stores := st' |},
                   Returned (set_header "X-RateLimit-Remaining"
                               (remaining_to_string (remaining quota)) response))
              end
          end
      end
  end.

End Auth.

(** ** Route handlers ([src/app/api/v1/memory/*/route.ts]) *)

Section RouteValidation.
Context `{RT : Runtime}.

Definition validTypes : list string :=
  ["factual"; "relational"; "procedural"; "episodic"; "semantic"].

(** [validTypes.includes(v)]. *)
Definition valid_type (v : JsVal) : bool :=
  match v with
  | JStr s => bool_decide (s ∈ validTypes)
  | _ => false
  end.

Definition validation_error_response (msg : string) : Response :=
  error_response msg "VALIDATION_ERROR" 400.

Definition invalid_type_message (v : JsVal) : string :=
  "Invalid type " +:+ dq +:+ js_to_string v +:+ dq +:+ ". Valid types: "
  +:+ join_comma validTypes.

(** [body.k] once the body is known not to be [null]. *)
Definition prop (b : JsVal) (k : string) : JsVal :=
  default JUndefined (get_prop b k).

(** The [types] of a recall body: [inl] the filter handed to [recall],
    [inr] the message of the validation error. *)
Definition check_types (v : JsVal) : option (list string) + string :=
  if negb (truthy v) then inl None
  else match v with
       | JArr l =>
           match list_find (λ t, valid_type t = false) l with
           | Some (_, t) => inr (invalid_type_message t)
           | None =>
               inl (Some (omap (λ t, match t with JStr s => Some s | _ => None end) l))
           end
       | _ => inr (dq +:+ "types" +:+ dq +:+ " must be an array")
       end.

End RouteValidation.

Module StoreRoute.
Section Route.
Context `{RT : Runtime}.

(** The [getMemoryService] the route imports. *)
Variable memoryService : string → MemoryService.

(** [POST /api/v1/memory/store]. *)
Definition handler : Handler := λ req auth st,
  match json req with
  | None => (st, Returned (error_response "Invalid JSON body" "BAD_REQUEST" 400))
  | Some b =>
      match get_prop b "content" with
      | None => (st, Thrown "TypeError")
      | Some (JStr c) =>
          if String.eqb c "" then
            (st, Returned (validation_error_response
                   ("Missing or invalid " +:+ dq +:+ "content" +:+ dq +:+ " field")))
          else if decide (10000 < Z.of_nat (String.length c)) then
            (st, Returned (validation_error_response
                   (dq +:+ "content" +:+ dq +:+ " must be less than 10000 characters")))
          else if truthy (prop b "type") && negb (valid_type (prop b "type")) then
            (st, Returned (validation_error_response
                             (invalid_type_message (prop b "type"))))
          else
            let bad_importance :=
              (st, Returned (validation_error_response
                     (dq +:+ "importance" +:+ dq +:+ " must be a number between 0 and 1"))) in
            let run imp :=
              match svc_store (memoryService (userId auth))
                              c (prop b "type") imp (prop b "metadata") st with
              | (st', Returned r) => (st', Returned (json_response (StoreBody r) 201))
              | (st', Thrown e) => (st', Thrown e)
              end in
            match prop b "importance" with
            | JUndefined => run None
            | JNum q =>
                if decide (q < 0 ∨ 1 < q)%Q then bad_importance else run (Some q)
            | _ => bad_importance
            end
      | Some _ =>
          (st, Returned (validation_error_response
                 ("Missing or invalid " +:+ dq +:+ "content" +:+ dq +:+ " field")))
      end
  end.

(** [export const POST = withAuth(handler)]. *)
Definition POST : Env → Z → Request → World → World * outcome Response :=
  withAuth handler.

End Route.
End StoreRoute.

Module RecallRoute.
Section Route.
Context `{RT : Runtime}.

(** The [getMemoryService] the route imports. *)
Variable memoryService : string → MemoryService.

(** [POST /api/v1/memory/recall]. *)
Definition handler : Handler := λ req auth st,
  match json req with
  | None => (st, Returned (error_response "Invalid JSON body" "BAD_REQUEST" 400))
  | Some b =>
      match get_prop b "query" with
      | None => (st, Thrown "TypeError")
      | Some (JStr query) =>
          if String.eqb query "" then
            (st, Returned (validation_error_response
                   ("Missing or invalid " +:+ dq +:+ "query" +:+ dq +:+ " field")))
          else
            let bad_limit :=
              (st, Returned (validation_error_response
                     (dq +:+ "limit" +:+ dq +:+ " must be a number between 1 and 100"))) in
            let run limit :=
              match check_types (prop b "types") with
              | inr msg => (st, Returned (validation_error_response msg))
              | inl types =>
                  match svc_recall (memoryService (userId auth))
                                   query limit types st with
                  | (st', Returned r) =>
                      (st', Returned (json_response (RecallBody r) 200))
                  | (st', Thrown e) => (st', Thrown e)
                  end
              end in
            match prop b "limit" with
            | JUndefined | JNull => run 10%Q
            | JNum q =>
                if decide (q < 1 ∨ 100 < q)%Q then bad_limit else run q
            | _ => bad_limit
            end
      | Some _ =>
          (st, Returned (validation_error_response
                 ("Missing or invalid " +:+ dq +:+ "query" +:+ dq +:+ " field")))
      end
  end.

(** [export const POST = withAuth(handler)]. *)
Definition POST : Env → Z → Request → World → World * outcome Response :=
  withAuth handler.

End Route.
End RecallRoute.

Module ConsolidateRoute.
Section Route.
Context `{RT : Runtime}.

(** The [getMemoryService] the route imports. *)
Variable memoryService : string → MemoryService.

(** [POST /api/v1/memory/consolidate]. *)
Definition handler : Handler := λ req auth st,
  match svc_consolidate (memoryService (userId auth)) st with
  | (st', Returned r) => (st', Returned (json_response (ConsolidateBody r) 200))
  | (st', Thrown e) => (st', Thrown e)
  end.

(** [export const POST = withAuth(handler)]. *)
Definition POST : Env → Z → Request → World → World * outcome Response :=
  withAuth handler.

End Route.
End ConsolidateRoute.

(** ** A small runtime for running the model

    Search is plain substring search, the index is the table itself, JSON
    values are printed as their string payload, the digest is the identity
    and [parseInt] reads an unsigned decimal prefix. *)

Fixpoint contains (needle s : string) : bool :=
  String.prefix needle s
  || match s with
     | EmptyString => false
     | String _ s' => contains needle s'
     end.

(** [pattern] is [%needle%]: the needle between the two wildcards. *)
Definition like_contains (pattern text : string) : bool :=
  contains (String.substring 1 (String.length pattern - 2) pattern) text.

Definition digit_of (c : ascii) : option Z :=
  let n := nat_of_ascii c in
  if decide (48 ≤ n ≤ 57)%nat then Some (Z.of_nat (n - 48)) else None.

Fixpoint parse_digits (acc : option Z) (s : string) : option Z :=
  match s with
  | EmptyString => acc
  | String c s' =>
      match digit_of c with
      | Some d => parse_digits (Some (10 * default 0 acc + d)) s'
      | None => acc
      end
  end.

Definition plain_string (v : JsVal) : string :=
  match v with
  | JStr s => s
  | _ => ""
  end.

Definition simple_runtime : Runtime :=
  {| FtsIndex := unit;
     fts_new := tt;
     fts_count := λ _ m, Z.of_nat (size m);
     fts_match := λ _ q, Some (λ _ r, contains q (content r));
     fts_after_insert := λ i _ _, i;
     fts_insert_or_ignore := λ i _ _, i;
     fts_after_delete := λ i _ _, i;
     sql_like := like_contains;
     sql_text_of_number := λ _, "0";
     JSON_stringify := plain_string;
     JSON_parse := λ s, Some (JStr s);
     sha256_hex := λ s, s;
     parseInt := parse_digits None;
     js_to_string := plain_string |}.

(** ** Sample data for running the model *)

Definition sample_row (c : string) (a : Q) : MemoryRow :=
  {| content := c; type := Some "factual"; importance := 0.5; activation := a;
     created_at := "2026-01-01T00:00:00.000Z"; last_accessed := None;
     metadata := None |}.

(** A table with a fresh record, one just above the threshold and one
    below it. *)
Definition sample_db : @Db simple_runtime :=
  @mkDb simple_runtime
        {[ "a" := sample_row "user likes tea" 1;
           "b" := sample_row "user likes coffee" 0.0104;
           "c" := sample_row "old note" 0.005 ]}
        tt.

(** Two records written through [store]. *)
Definition first_db : @Db simple_runtime :=
  (store "id-1" "2026-01-01T00:00:00.000Z" "user likes tea"
         JUndefined None JUndefined new_db).1.

Definition stored_db : @Db simple_runtime :=
  (store "id-2" "2026-01-02T00:00:00.000Z" "user likes chess"
         (JStr "relational") (Some 0.8%Q) JUndefined first_db).1.

Definition sample_calls : list Call :=
  [CallConsolidate;
   CallRecall "2026-02-01T00:00:00.000Z" 0 3 "chess" 5 None;
   CallConsolidate].

(** The same after twelve consolidations: both activations are below 1. *)
Definition decayed_db : @Db simple_runtime :=
  Nat.iter 12 (λ db, (consolidate db).1) stored_db.

Definition sample_recall : @Db simple_runtime * outcome RecallResponse :=
  recall "2026-02-01T00:00:00.000Z" 0 3 "likes" 1 (Some ["factual"]) decayed_db.

(** A content of 10001 characters. *)
Definition long_content : string :=
  string_of_list_ascii (replicate (Z.to_nat 10001) "x"%char).

Definition long_store_request : Request :=
  {| authorization := Some "Bearer secret";
     pathname := "/api/v1/memory/store";
     json := Some (JObj [("content", JStr long_content);
                         ("type", JStr "factual")]) |}.

Definition sample_env : Env :=
  {| SUPABASE_URL := Some "https://db.example";
     SUPABASE_SERVICE_KEY := Some "service-key";
     TEST_API_KEY := None;
     RATE_LIMIT_FREE := Some "2";
     RATE_LIMIT_PRO := None |}.

(** One key of tier [free] for user [alice], who made two calls in the last
    minute before time 1000000; [outage] tells whether the count query
    fails. *)
Definition sample_supabase (outage : bool) : Supabase :=
  {| api_keys := [{| key_id := "k1"; key_user_id := "alice";
                     key_hash := "secret"; key_tier := "free";
                     key_last_used := None |}];
     usage_log := [{| log_user_id := "alice";
                      log_endpoint := "/api/v1/memory/store";
                      log_timestamp := 990000; log_tokens_used := None |};
                   {| log_user_id := "alice";
                      log_endpoint := "/api/v1/memory/recall";
                      log_timestamp := 995000; log_tokens_used := None |}];
     key_select_fails := false;
     key_update_fails := false;
     usage_insert_fails := false;
     usage_count_fails := outage |}.

Definition sample_world (outage : bool) : @World simple_runtime :=
  {| supabase := sample_supabase outage; stores := ∅ |}.

Definition sample_ambient : Ambient :=
  {| amb_uuid := "id-9"; amb_iso_now := "2026-02-01T00:00:00.000Z";
     amb_t0 := 1000000; amb_t1 := 1000002 |}.

Definition consolidate_request : Request :=
  {| authorization := Some "Bearer secret";
     pathname := "/api/v1/memory/consolidate";
     json := None |}.

Definition sample_handler : @Handler simple_runtime :=
  ConsolidateRoute.handler (getMemoryService sample_ambient).

Definition alice : AuthContext := {| userId := "alice"; tier := "free" |}.

(** ** Further definitions *)

Section RecallWhere.
Context `{RT : Runtime}.

(** The [WHERE] clause of the search statement of [recall], when the
    statement is accepted. *)
Definition recall_matches (query : string) (types : option (list string))
    (db : Db) (keep : string → MemoryRow → bool) : Prop :=
  (0 < fts_count (memories_fts db) (memories db)
   ∧ ∃ m, fts_match (memories_fts db) query = Some m
          ∧ keep = λ k r, m k r && type_filter types r)
  ∨ (¬ 0 < fts_count (memories_fts db) (memories db)
     ∧ keep = λ _ r, sql_like ("%" +:+ query +:+ "%") (content r)
                     && type_filter types r).

End RecallWhere.

(** The activation of a record that starts at 1, after [n] decays. *)
Definition decayed (n : nat) : Q := Nat.iter n (λ a, a * 0.95)%Q 1%Q.

(** Through the first 89 decays the activation stays above the threshold. *)
Definition stays_above (n : nat) : bool :=
  forallb (λ i, bool_decide (0.01 < decayed i)%Q) (seq 0 n).

(** The characters of a string. *)
Definition chars (s : string) : list ascii := list_ascii_of_string s.

(** [n.toString(16)] for a digit below 16. *)
Definition hex_digit (n : N) : ascii :=
  if (n <? 10)%N then ascii_of_N (48 + n) else ascii_of_N (87 + n).

(** [b.toString(16).padStart(2, '0')] for a byte. *)
Definition hex_byte (b : Byte.byte) : string :=
  let n := Byte.to_N b in
  String (hex_digit (n / 16)) (String (hex_digit (n mod 16)) EmptyString).

(** [Array.from(bytes).map(...).join('')]. *)
Fixpoint hex_of_bytes (l : list Byte.byte) : string :=
  match l with
  | [] => EmptyString
  | b :: l' => hex_byte b +:+ hex_of_bytes l'
  end.

Section ApiKeys.
Context `{RT : Runtime}.

(** [generateApiKey]. [keyBytes] are the 32 bytes [crypto.getRandomValues]
    wrote; [answer] is what the insert returned: the id of the new row, or
    the message of an error. The columns [name] and [created_at] of the
    new row are written here and read nowhere in the code: the table keeps
    the columns that [validateApiKey] selects. *)
Definition generateApiKey (env : Env) (now : Z) (keyBytes : list Byte.byte)
    (answer : string + string) (uid t : string) (name : option string)
    (sb : Supabase) : Supabase * outcome (string * string) :=
  if negb (getSupabaseAdmin env) then
    (sb, Thrown "Missing Supabase environment variables")
  else
    let key := "bcb_" +:+ hex_of_bytes keyBytes in
    let keyHash := sha256_hex key in
    match answer with
    | inr message => (sb, Thrown ("Failed to create API key: " +:+ message))
    | inl new_id =>
        (set_api_keys
           (api_keys sb ++
            [{| key_id := new_id; key_user_id := uid; key_hash := keyHash;
                key_tier := t; key_last_used := None |}]) sb,
         Returned (key, new_id))
    end.

End ApiKeys.

(** ** Statistics ([MemoryService.stats]) *)

Record StatsResponse := mkStatsResponse {
  total_memories : Z;
  by_type : gmap string Z;
  oldest_memory : option string;
  newest_memory : option string;
  avg_importance : Q
}.

(** The property name a [type] value selects in [byType[row.type]]. *)
Definition type_key (t : option string) : string := default "null" t.

(** [MIN] and [MAX] of a TEXT column: byte order, NULL on no row. *)
Definition sql_min (l : list string) : option string :=
  match l with
  | [] => None
  | x :: l' => Some (foldl (λ a b, if String.leb a b then a else b) x l')
  end.

Definition sql_max (l : list string) : option string :=
  match l with
  | [] => None
  | x :: l' => Some (foldl (λ a b, if String.leb a b then b else a) x l')
  end.

Definition Qsum (l : list Q) : Q := foldr Qplus 0%Q l.

(** [AVG] of a REAL column: NULL on no row. *)
Definition sql_avg (l : list Q) : option Q :=
  match l with
  | [] => None
  | _ => Some (Qsum l / inject_Z (Z.of_nat (length l)))%Q
  end.

Section Stats.
Context `{RT : Runtime}.

(** [SELECT type, COUNT( * ) FROM memories GROUP BY type]: one row per
    distinct type value with the number of records that have it, the NULL
    group first (SQLite walks the index on [type]). *)
Definition count_by_type (m : gmap string MemoryRow) : list (option string * Z) :=
  let tys := (λ kv : string * MemoryRow, type kv.2) <$> map_to_list m in
  let keys := remove_dups tys in
  (λ t, (t, Z.of_nat (length (filter (λ t', t' = t) tys))))
    <$> (filter (λ t, t = None) keys ++ filter (λ t, t ≠ None) keys).

(** The object [byType] before the loop. *)
Definition byType0 : gmap string Z :=
  list_to_map [("factual", 0); ("relational", 0); ("procedural", 0);
               ("episodic", 0); ("semantic", 0)].

End Stats.

(** [MemoryService.stats], in a name space of its own beside the [stats]
    field of [ConsolidateResponse]. It only reads. *)
Module Statistics.
Section Service.
Context `{RT : Runtime}.

Definition stats (db : Db) : StatsResponse :=
  let rows := map_to_list (memories db) in
  {| total_memories := Z.of_nat (size (memories db));
     by_type := foldl (λ acc g, <[type_key g.1 := g.2]> acc) byType0
                      (count_by_type (memories db));
     oldest_memory :=
       or_undefined (sql_min ((λ kv, created_at kv.2) <$> rows));
     newest_memory :=
       or_undefined (sql_max ((λ kv, created_at kv.2) <$> rows));
     avg_importance :=
       match sql_avg ((λ kv, importance kv.2) <$> rows) with
       | Some a => if Qeq_bool a 0 then 0%Q else a
       | None => 0%Q
       end |}.

End Service.
End Statistics.

Section StatsCounts.
Context `{RT : Runtime}.

(** The number of records of a type. *)
Definition records_of_type (t : string) (db : Db) : Z :=
  Z.of_nat (size (filter (λ kv : string * MemoryRow, type kv.2 = Some t)
                         (memories db))).

End StatsCounts.

(** ** Further sample data *)

(** A request without an [Authorization] header. *)
Definition anonymous_request : Request :=
  {| authorization := None;
     pathname := "/api/v1/memory/consolidate";
     json := None |}.

(** A request with a key that is in no table. *)
Definition stranger_request : Request :=
  {| authorization := Some "Bearer wrong";
     pathname := "/api/v1/memory/consolidate";
     json := None |}.

(** A development setup: the test key and no Supabase. *)
Definition test_env : Env :=
  {| SUPABASE_URL := None;
     SUPABASE_SERVICE_KEY := None;
     TEST_API_KEY := Some "test-key";
     RATE_LIMIT_FREE := None;
     RATE_LIMIT_PRO := None |}.

Definition test_request : Request :=
  {| authorization := Some "Bearer test-key";
     pathname := "/api/v1/memory/consolidate";
     json := None |}.

Definition good_store_body : JsVal :=
  JObj [("content", JStr "User prefers Python");
        ("type", JStr "relational");
        ("importance", JNum 0.8)].

Definition good_store_request : Request :=
  {| authorization := Some "Bearer secret";
     pathname := "/api/v1/memory/store";
     json := Some good_store_body |}.

Definition bogus_type_request : Request :=
  {| authorization := Some "Bearer secret";
     pathname := "/api/v1/memory/store";
     json := Some (JObj [("content", JStr "hi"); ("type", JStr "bogus")]) |}.

Definition recall_body (limit : Q) : JsVal :=
  JObj [("query", JStr "Python"); ("limit", JNum limit)].

Definition recall_request (limit : Q) : Request :=
  {| authorization := Some "Bearer secret";
     pathname := "/api/v1/memory/recall";
     json := Some (recall_body limit) |}.

(** The stores after [good_store_request]. *)
Definition python_stores : @Stores simple_runtime :=
  (StoreRoute.handler (getMemoryService sample_ambient) good_store_request
                      alice (stores (sample_world false))).1.

(** Two random bytes. *)
Definition key_bytes : list Byte.byte := [Byte.x0a; Byte.xff].

(** A search for "user" in [sample_db]: the records [a] (activation 1) and
    [b] (activation 0.0104) match, [c] does not. *)
Definition top_recall (limit : Q) : @Db simple_runtime * outcome RecallResponse :=
  recall "2026-02-01T00:00:00.000Z" 0 3 "user" limit None sample_db.

(** * Properties *)

(** Case analysis on every [match] of a goal that computes an outcome. *)
Ltac case_all := repeat (case_match; simplify_eq; try done).

(** ** Consolidation: decay, then forgetting *)

Section ConsolidateFacts.
Context `{RT : Runtime}.

Lemma with_activation_same (r : MemoryRow) : with_activation (activation r) r = r.
Proof. by destruct r. Qed.

(** The row a key holds after [consolidate], from the row it held before. *)
Lemma consolidate_lookup (db : Db) (k : string) :
  memories (consolidate db).1 !! k =
    match memories db !! k with
    | Some r => if decide (is_forgotten (decay r)) then None else Some (decay r)
    | None => None
    end.
Proof.
  cbn. rewrite map_lookup_filter, lookup_fmap.
  destruct (memories db !! k) as [r|]; cbn; [|done].
  by repeat case_decide; simplify_option_eq.
Qed.

Lemma consolidate_sizes (db : Db) :
  let decayed := decay <$> memories db in
  (size (memories db) =
     size (filter (λ kv : string * MemoryRow, is_forgotten kv.2) decayed)
     + size (memories (consolidate db).1))%nat.
Proof.
  cbn.
  rewrite <-(map_size_fmap decay (memories db)).
  rewrite <-(map_filter_union_complement
               (λ kv : string * MemoryRow, is_forgotten kv.2)
               (decay <$> memories db)) at 1.
  apply map_size_disj_union, map_disjoint_filter_complement.
Qed.

(** C1. [consolidate] multiplies by 0.95 the activation of exactly the
    records whose activation exceeds 0.01 and leaves the other activations
    as they are; it then deletes exactly the records whose activation, after
    that decay, is below 0.01, and creates none. Every record that remains
    has an activation of at least 0.01. *)
Theorem consolidate_decays_then_forgets (db : Db) :
  let db' := (consolidate db).1 in
  (∀ k r, memories db !! k = Some r →
     let a' := if decide (0.01 < activation r)%Q
               then (activation r * 0.95)%Q else activation r in
     memories db' !! k =
       if decide (a' < 0.01)%Q then None else Some (with_activation a' r))
  ∧ (∀ k, memories db !! k = None → memories db' !! k = None)
  ∧ (∀ k r', memories db' !! k = Some r' → (0.01 <= activation r')%Q).
Proof.
  cbv zeta. split_and!.
  - intros k r Hk. rewrite consolidate_lookup, Hk.
    unfold decay, is_forgotten, FORGET_THRESHOLD, DECAY.
    destruct (decide (0.01 < activation r)%Q); cbn; [done|].
    by rewrite with_activation_same.
  - intros k Hk. by rewrite consolidate_lookup, Hk.
  - intros k r'. rewrite consolidate_lookup.
    destruct (memories db !! k) as [r|]; [|done].
    case_decide as Hf; [done|]. intros [= <-].
    unfold is_forgotten, FORGET_THRESHOLD in Hf.
    by apply Qnot_lt_le.
Qed.

(** The keys [consolidate] keeps are keys of the table it started from. *)
Lemma consolidate_dom (db : Db) :
  dom (memories (consolidate db).1) ⊆ dom (memories db).
Proof.
  intros k [r Hr]%elem_of_dom. rewrite consolidate_lookup in Hr.
  apply elem_of_dom. by destruct (memories db !! k).
Qed.

(** C4. The statistics [consolidate] returns: [memories_before] and
    [memories_after] are the sizes of the table before and after the call,
    [forgotten] is the number of records that were in the table and are no
    longer, [memories_after = memories_before - forgotten], and [merged]
    is 0. *)
Theorem consolidate_stats_balance (db : Db) :
  let s := stats (consolidate db).2 in
  let db' := (consolidate db).1 in
  memories_before s = Z.of_nat (size (memories db))
  ∧ memories_after s = Z.of_nat (size (memories db'))
  ∧ forgotten s = Z.of_nat (size (dom (memories db) ∖ dom (memories db')))
  ∧ memories_after s = memories_before s - forgotten s
  ∧ merged s = 0
  ∧ consolidated (consolidate db).2 = true.
Proof.
  pose proof (consolidate_sizes db) as Hsz.
  pose proof (size_difference _ _ (consolidate_dom db)) as Hdiff.
  rewrite !size_dom in Hdiff. cbn in *. lia.
Qed.

End ConsolidateFacts.

(** ** Activation stays within bounds *)

Section ActivationBounds.
Context `{RT : Runtime}.

Lemma touch_activation_bounds now (r : MemoryRow) :
  (0 <= activation r <= 1)%Q → (0 <= activation (touch now r) <= 1)%Q.
Proof.
  intros [H0 H1]. cbn. unfold BOOST. split.
  - apply Q.min_glb; lra.
  - apply Q.le_min_r.
Qed.

Lemma touch_activation_pos now (r : MemoryRow) :
  (0 < activation r)%Q → (0 < activation (touch now r))%Q.
Proof.
  intros H0. cbn. unfold BOOST. apply Q.min_glb_lt; lra.
Qed.

Lemma decay_activation_bounds (r : MemoryRow) :
  (0 <= activation r <= 1)%Q → (0 <= activation (decay r) <= 1)%Q.
Proof.
  intros [H0 H1]. unfold decay, DECAY. case_decide; cbn; lra.
Qed.

Lemma decay_activation_pos (r : MemoryRow) :
  (0 < activation r)%Q → (0 < activation (decay r))%Q.
Proof.
  intros H0. unfold decay, DECAY. case_decide; cbn; lra.
Qed.

(** What [recall] leaves in the table. *)
Lemma recall_memories now t0 t1 query limit types (db : Db) :
  memories (recall now t0 t1 query limit types db).1 =
    match search query limit types db with
    | Some rows => touch_all now rows (memories db)
    | None => memories db
    end.
Proof.
  unfold recall. destruct (search _ _ _ _) as [rows|]; [|done].
  by destruct (mapM _ _).
Qed.

(** A property of rows that [touch] preserves survives the updates. *)
Lemma touch_all_preserves (P : MemoryRow → Prop) now rows
    (m : gmap string MemoryRow) :
  (∀ r, P r → P (touch now r)) →
  map_Forall (λ _, P) m → map_Forall (λ _, P) (touch_all now rows m).
Proof.
  intros HP. unfold touch_all. revert m.
  induction rows as [|kv rows IH]; intros m Hm; cbn; [done|].
  apply IH. intros k r. rewrite lookup_alter.
  case_decide; [|by apply Hm].
  destruct (m !! kv.1) as [r0|] eqn:E; cbn; [|done].
  intros [= <-]. eapply HP, Hm, E.
Qed.

(** The three operations preserve every property of rows that holds of a
    fresh row and that [touch] and [decay] preserve. *)
Lemma reachable_rows_ind (P : MemoryRow → Prop) :
  (∀ r, activation r = 1%Q → P r) →
  (∀ now r, P r → P (touch now r)) →
  (∀ r, P r → P (decay r)) →
  ∀ db, reachable db → map_Forall (λ _, P) (memories db).
Proof.
  intros Hnew Htouch Hdecay db Hreach.
  induction Hreach as [|uuid now c ty imp md db _ IH
                       |now t0 t1 query limit types db _ IH
                       |db _ IH].
  - cbn. apply map_Forall_empty.
  - unfold store. destruct (bind_text _) as [ty'|]; [|done].
    destruct (memories db !! uuid) eqn:E; [done|]. cbn.
    apply map_Forall_insert; [done|]. split; [by apply Hnew|done].
  - rewrite recall_memories. destruct (search _ _ _ _); [|done].
    apply touch_all_preserves; [apply Htouch|done].
  - intros k r. rewrite consolidate_lookup.
    destruct (memories db !! k) as [r0|] eqn:E; [|done].
    case_decide; [done|]. intros [= <-]. eapply Hdecay, IH, E.
Qed.

(** Reachable states hold positive activations only: a fresh record starts
    at 1 and both updates multiply by a positive factor. *)
Lemma reachable_activation_pos (db : Db) k r :
  reachable db → memories db !! k = Some r → (0 < activation r <= 1)%Q.
Proof.
  intros Hreach Hk.
  refine (reachable_rows_ind (λ r, 0 < activation r <= 1)%Q _ _ _ db Hreach k r Hk).
  - intros r0 ->. lra.
  - intros now r0 [H0 H1]. split; [by apply touch_activation_pos|].
    apply touch_activation_bounds. lra.
  - intros r0 [H0 H1]. split; [by apply decay_activation_pos|].
    apply decay_activation_bounds. lra.
Qed.

(** C5. In every state reachable by [store], [recall] and [consolidate]
    every record's activation lies in [0,1]: [store] writes 1, and the
    update of [recall], [min(1.1 a, 1)], and the update of [consolidate],
    [0.95 a] above the threshold, both map [0,1] into [0,1]. *)
Theorem activation_in_unit_interval (db : Db) :
  reachable db →
  (∀ k r, memories db !! k = Some r → (0 <= activation r <= 1)%Q)
  ∧ (∀ uuid now c ty imp md db' resp r,
       store uuid now c ty imp md db = (db', Returned resp) →
       memories db' !! store_id resp = Some r → activation r = 1%Q)
  ∧ (∀ now r, (0 <= activation r <= 1)%Q →
       activation (touch now r) = Qmin (activation r * 1.1) 1
       ∧ (0 <= activation (touch now r) <= 1)%Q)
  ∧ (∀ r, (0 <= activation r <= 1)%Q →
       (0 <= activation r * 0.95 <= 1)%Q
       ∧ (0 <= activation (decay r) <= 1)%Q).
Proof.
  intros Hreach. split_and!.
  - intros k r Hk.
    destruct (reachable_activation_pos db k r Hreach Hk). lra.
  - intros uuid now c ty imp md db' resp r. unfold store.
    destruct (bind_text _) as [ty'|]; [|done].
    destruct (memories db !! uuid) eqn:E; [done|].
    intros [= <- <-]. cbn. rewrite lookup_insert_eq. by intros [= <-].
  - intros now r Hr. split; [done|by apply touch_activation_bounds].
  - intros r Hr. split; [lra|by apply decay_activation_bounds].
Qed.

End ActivationBounds.

(** ** Recall: selection, boost and response *)

Section RecallFacts.
Context `{RT : Runtime}.

Lemma sql_limit_sublist {A} n (l : list A) : sql_limit n l `sublist_of` l.
Proof. unfold sql_limit. case_decide; [done|apply sublist_take]. Qed.

Lemma sql_limit_length {A} n (l : list A) :
  0 ≤ n → Z.of_nat (length (sql_limit n l)) ≤ n.
Proof.
  intros Hn. unfold sql_limit. case_decide; [lia|].
  rewrite length_take. lia.
Qed.

(** The selected rows are rows of the table that pass the [WHERE] clause. *)
Lemma select_rows_elem keep n (db : Db) kv :
  kv ∈ select_rows keep n db →
  memories db !! kv.1 = Some kv.2 ∧ keep kv.1 kv.2 = true.
Proof.
  unfold select_rows, order_by_activation_desc. intros Hin.
  apply (λ H, elem_of_sublist _ _ _ H (sql_limit_sublist _ _)) in Hin.
  rewrite merge_sort_Permutation in Hin.
  apply list_elem_of_filter in Hin as [Hkeep Hin].
  split; [|by destruct (keep kv.1 kv.2)].
  destruct kv as [k r]. by apply elem_of_map_to_list in Hin.
Qed.

(** No key is selected twice. *)
Lemma select_rows_NoDup keep n (db : Db) : NoDup (select_rows keep n db).*1.
Proof.
  unfold select_rows, order_by_activation_desc.
  eapply sublist_NoDup; [|apply fmap_sublist, sql_limit_sublist].
  rewrite merge_sort_Permutation.
  eapply sublist_NoDup; [|apply fmap_sublist, sublist_filter].
  apply NoDup_fst_map_to_list.
Qed.

Lemma select_rows_length keep n (db : Db) :
  0 ≤ n → Z.of_nat (length (select_rows keep n db)) ≤ n.
Proof. apply sql_limit_length. Qed.

(** The rows come out by descending activation. *)
Lemma order_by_activation_desc_sorted (rows : list (string * MemoryRow)) :
  Sorted activation_desc (order_by_activation_desc rows).
Proof.
  assert (Total activation_desc) as Htotal.
  { intros x y. unfold activation_desc.
    destruct (Qlt_le_dec (activation x.2) (activation y.2)) as [H|H];
      [right; by apply Qlt_le_weak|by left]. }
  apply Sorted_merge_sort, Htotal.
Qed.

(** [search] splits into the statement that ran and the bound it used. *)
Lemma search_Some query limit types (db : Db) rows :
  search query limit types db = Some rows →
  ∃ keep n, to_integer limit = Some n
            ∧ rows = select_rows (λ k r, keep k r && type_filter types r) n db.
Proof.
  unfold search. case_decide; intros Hs; simplify_option_eq; eauto.
Qed.

Lemma to_integer_Some q n : to_integer q = Some n → (q == inject_Z n)%Q.
Proof.
  unfold to_integer. case_decide as H; [|done]. intros [= <-].
  destruct H as [Hden _].
  transitivity (Qred q); [symmetry; apply Qred_correct|].
  destruct (Qred q) as [num den]. cbn in *. subst den. reflexivity.
Qed.

(** The updates of [recall], key by key. *)
Lemma touch_all_lookup now rows (m : gmap string MemoryRow) k :
  NoDup rows.*1 →
  touch_all now rows m !! k =
    if decide (k ∈ rows.*1) then touch now <$> m !! k else m !! k.
Proof.
  unfold touch_all. revert m.
  induction rows as [|[k0 r0] rows IH]; intros m Hnd; cbn.
  { case_decide as Hin; [by apply elem_of_nil in Hin|done]. }
  apply NoDup_cons in Hnd as [Hk0 Hnd]. rewrite IH by done.
  rewrite lookup_alter. destruct (decide (k0 = k)) as [->|Hne].
  - rewrite decide_False by done. rewrite decide_True by left. done.
  - destruct (decide (k ∈ rows.*1)) as [Hin|Hin].
    + rewrite decide_True by (by right). done.
    + rewrite decide_False; [done|]. intros [->|?]%elem_of_cons; done.
Qed.

(** A successful [recall], taken apart. *)
Lemma recall_Returned now t0 t1 query limit types (db db' : Db) resp :
  recall now t0 t1 query limit types db = (db', Returned resp) →
  ∃ rows, search query limit types db = Some rows
          ∧ memories db' = touch_all now rows (memories db)
          ∧ Forall2 (λ kv m, to_memory kv = Some m) rows (results resp).
Proof.
  unfold recall. destruct (search _ _ _ _) as [rows|]; [|done].
  destruct (mapM _ _) as [res|] eqn:E; [|done]. intros [= <- <-].
  exists rows. split_and!; [done..|]. by apply mapM_Some.
Qed.

Lemma to_memory_Some kv m :
  to_memory kv = Some m →
  Memory.id m = kv.1
  ∧ Memory.activation m = activation kv.2
  ∧ Memory.last_accessed m = or_undefined (last_accessed kv.2)
  ∧ Memory.type m = type kv.2.
Proof.
  unfold to_memory. intros H.
  destruct (match metadata kv.2 with Some _ => _ | None => _ end); [|done].
  by injection H as <-.
Qed.

(** Every returned [Memory] comes from a row read by the search, which the
    call then updates. *)
Lemma recall_returned_row now t0 t1 query limit types (db db' : Db) resp m :
  recall now t0 t1 query limit types db = (db', Returned resp) →
  m ∈ results resp →
  ∃ r, memories db !! Memory.id m = Some r
       ∧ memories db' !! Memory.id m = Some (touch now r)
       ∧ Memory.activation m = activation r
       ∧ Memory.last_accessed m = or_undefined (last_accessed r)
       ∧ Memory.type m = type r
       ∧ type_filter types r = true.
Proof.
  intros (rows & Hs & Hm & Hres)%recall_Returned Hin.
  apply list_elem_of_lookup in Hin as [i Hi].
  destruct (Forall2_lookup_r _ _ _ _ _ Hres Hi) as ([k r] & Hrow & Hmem).
  apply to_memory_Some in Hmem as (Hid & Hact & Hla & Hty). cbn in *.
  destruct (search_Some _ _ _ _ _ Hs) as (keep & n & _ & ->).
  assert ((k, r) ∈ select_rows (λ k r, keep k r && type_filter types r) n db)
    as Hsel by (eapply list_elem_of_lookup; eauto).
  destruct (select_rows_elem _ _ _ _ Hsel) as [Hlook Hkeep]. cbn in *.
  apply andb_true_iff in Hkeep as [_ Hkeep].
  exists r. rewrite Hid, Hm. split_and!; try done.
  rewrite touch_all_lookup by apply select_rows_NoDup.
  rewrite decide_True; [by rewrite Hlook|].
  by apply (list_elem_of_fmap_2 fst _ (k, r)).
Qed.

(** C2. Every record that [recall] returns is updated in the table: its
    last-accessed time becomes the current time and its activation [a]
    becomes [min(1.1 a, 1)], which never exceeds 1 and is 1 when [a] is at
    least 1. In a state reachable by [store], [recall] and [consolidate], so
    at every call of a repeated query, an activation below 1 strictly
    increases. *)
Theorem recall_boosts_returned_records
    now t0 t1 query limit types (db db' : Db) resp m :
  recall now t0 t1 query limit types db = (db', Returned resp) →
  m ∈ results resp →
  ∃ r r', memories db !! Memory.id m = Some r
          ∧ memories db' !! Memory.id m = Some r'
          ∧ last_accessed r' = Some now
          ∧ activation r' = Qmin (activation r * 1.1) 1
          ∧ (activation r' <= 1)%Q
          ∧ (1 <= activation r → activation r' == 1)%Q
          ∧ (reachable db → activation r < 1 → activation r < activation r')%Q.
Proof.
  intros Hrec Hin.
  destruct (recall_returned_row _ _ _ _ _ _ _ _ _ _ Hrec Hin)
    as (r & Hr & Hr' & _).
  exists r, (touch now r). split_and!; try done; cbn; unfold BOOST.
  - apply Q.le_min_r.
  - intros H1. apply Q.min_r. lra.
  - intros Hreach Hlt.
    destruct (reachable_activation_pos db _ r Hreach Hr) as [Hpos _].
    apply Q.min_glb_lt; lra.
Qed.

(** C3. The [Memory] objects that [recall] returns carry the activation and
    the last-accessed time that the search read, a NULL time being absent
    from the object: the table holds the boosted activation and the new
    time, the response does not. *)
Theorem recall_returns_values_read_before_update
    now t0 t1 query limit types (db db' : Db) resp m :
  recall now t0 t1 query limit types db = (db', Returned resp) →
  m ∈ results resp →
  ∃ r r', memories db !! Memory.id m = Some r
          ∧ memories db' !! Memory.id m = Some r'
          ∧ Memory.activation m = activation r
          ∧ Memory.last_accessed m = or_undefined (last_accessed r)
          ∧ (last_accessed r ≠ Some "" →
             Memory.last_accessed m = last_accessed r)
          ∧ activation r' = Qmin (activation r * 1.1) 1
          ∧ last_accessed r' = Some now
          ∧ (0 < activation r → activation r < 1 →
             Memory.activation m < activation r')%Q.
Proof.
  intros Hrec Hin.
  destruct (recall_returned_row _ _ _ _ _ _ _ _ _ _ Hrec Hin)
    as (r & Hr & Hr' & Hact & Hla & _).
  exists r, (touch now r). split_and!; try done.
  - intros Hne. rewrite Hla. destruct (last_accessed r) as [s|]; [|done].
    cbn. destruct (String.eqb_spec s ""); congruence.
  - intros Hpos Hlt. rewrite Hact. cbn. unfold BOOST.
    apply Q.min_glb_lt; lra.
Qed.

Lemma recall_length_le_limit
    now t0 t1 query limit types (db db' : Db) resp :
  recall now t0 t1 query limit types db = (db', Returned resp) →
  (0 <= limit → inject_Z (Z.of_nat (length (results resp))) <= limit)%Q.
Proof.
  intros Hrec Hlim.
  destruct (recall_Returned _ _ _ _ _ _ _ _ _ Hrec) as (rows & Hs & _ & Hres).
  destruct (search_Some _ _ _ _ _ Hs) as (keep & n & Hn & ->).
  apply to_integer_Some in Hn. rewrite <-(Forall2_length _ _ _ Hres).
  rewrite Hn in Hlim |- *. rewrite <-Zle_Qle. apply select_rows_length.
  change 0%Q with (inject_Z 0) in Hlim. by rewrite <-Zle_Qle in Hlim.
Qed.

(** C6. [recall] returns at most [limit] records when the limit is not
    negative, and when a non-empty list of types is given, the type of every
    returned record is in the list, whichever of the two search statements
    ran. The program calls [recall] from the recall route only: the answer
    of the route either does not depend on the memory service, or is that of
    one call with a limit between 1 and 100. So every 200 answer of the
    route carries the result of a [recall] with the limit of the body (10
    when it gives none), between 1 and 100, holding at most that many
    records, each of a requested type. *)
Theorem recall_respects_limit_and_types :
  (∀ now t0 t1 query limit types (db db' : Db) resp,
     recall now t0 t1 query limit types db = (db', Returned resp) →
     (0 <= limit → inject_Z (Z.of_nat (length (results resp))) <= limit)%Q
     ∧ (∀ ts m, types = Some ts → ts ≠ [] → m ∈ results resp →
          ∃ t, Memory.type m = Some t ∧ t ∈ ts))
  ∧ (∀ req auth (st : Stores),
       (∃ out, ∀ svc, RecallRoute.handler svc req auth st = (st, out))
       ∨ (∃ query limit types,
            (1 <= limit <= 100)%Q
            ∧ ∀ svc, RecallRoute.handler svc req auth st
                     = match svc_recall (svc (userId auth))
                                        query limit types st with
                       | (st', Returned r) =>
                           (st', Returned (json_response (RecallBody r) 200))
                       | (st', Thrown e) => (st', Thrown e)
                       end))
  ∧ (∀ amb req auth (st st' : Stores) resp,
       RecallRoute.handler (getMemoryService amb) req auth st
         = (st', Returned resp) →
       status resp = 200 →
       ∃ b query limit types db' r,
         json req = Some b
         ∧ check_types (prop b "types") = inl types
         ∧ (prop b "limit" = JNum limit
            ∨ (prop b "limit" = JUndefined ∨ prop b "limit" = JNull)
              ∧ limit = 10%Q)
         ∧ (1 <= limit <= 100)%Q
         ∧ recall (amb_iso_now amb) (amb_t0 amb) (amb_t1 amb)
                  query limit types (getDb (userId auth) st)
           = (db', Returned r)
         ∧ body resp = RecallBody r
         ∧ (inject_Z (Z.of_nat (length (results r))) <= limit)%Q
         ∧ (∀ ts m, types = Some ts → ts ≠ [] → m ∈ results r →
              ∃ t, Memory.type m = Some t ∧ t ∈ ts)).
Proof.
  assert (∀ now t0 t1 query limit types (db db' : Db) resp,
            recall now t0 t1 query limit types db = (db', Returned resp) →
            ∀ ts m, types = Some ts → ts ≠ [] → m ∈ results resp →
                    ∃ t, Memory.type m = Some t ∧ t ∈ ts) as Htypes.
  { intros now t0 t1 query limit types db db' resp Hrec ts m -> Hne Hin.
    destruct (recall_returned_row _ _ _ _ _ _ _ _ _ _ Hrec Hin)
      as (r & _ & _ & _ & _ & Hty & Hf).
    destruct ts as [|t0' ts]; [done|]. cbn in Hf. unfold type_in in Hf.
    rewrite Hty. destruct (type r) as [t|]; [|done].
    exists t. split; [done|]. by apply bool_decide_eq_true in Hf. }
  split; [|split].
  - intros now t0 t1 query limit types db db' resp Hrec. split.
    + by eapply recall_length_le_limit.
    + by eapply Htypes.
  - intros req auth st. unfold RecallRoute.handler.
    destruct (json req) as [b|]; [|left; eexists; intros; reflexivity].
    destruct (get_prop b "query") as [[| | | |query| |]|];
      try (left; eexists; intros; reflexivity).
    destruct (String.eqb query ""); [left; eexists; intros; reflexivity|].
    destruct (check_types (prop b "types")) as [types|msg].
    + destruct (prop b "limit") as [| | |q| | |];
        try (left; eexists; intros; reflexivity).
      * right. exists query, 10%Q, types. split; [lra|]. intros. reflexivity.
      * right. exists query, 10%Q, types. split; [lra|]. intros. reflexivity.
      * case_decide as Hq; [left; eexists; intros; reflexivity|].
        right. exists query, q, types.
        split; [split; apply Qnot_lt_le; tauto|]. intros. reflexivity.
    + destruct (prop b "limit") as [| | |q| | |];
        try (left; eexists; intros; reflexivity).
      case_decide; left; eexists; intros; reflexivity.
  - intros amb req auth st st' resp H Hst. unfold RecallRoute.handler in H.
    destruct (json req) as [b|]; [|by simplify_eq].
    destruct (get_prop b "query") as [[| | | |query| |]|];
      try (by simplify_eq).
    destruct (String.eqb query ""); [by simplify_eq|].
    destruct (check_types (prop b "types")) as [types|msg] eqn:Hty.
    2: { destruct (prop b "limit") as [| | |q| | |]; try (by simplify_eq).
         case_decide; by simplify_eq. }
    assert (∀ limit, (1 <= limit <= 100)%Q →
              match svc_recall (getMemoryService amb (userId auth))
                               query limit types st with
              | (st', Returned r) =>
                  (st', Returned (json_response (RecallBody r) 200))
              | (st', Thrown e) => (st', Thrown e)
              end = (st', Returned resp) →
              ∃ db' r,
                recall (amb_iso_now amb) (amb_t0 amb) (amb_t1 amb)
                       query limit types (getDb (userId auth) st)
                = (db', Returned r)
                ∧ body resp = RecallBody r
                ∧ (inject_Z (Z.of_nat (length (results r))) <= limit)%Q
                ∧ (∀ ts m, types = Some ts → ts ≠ [] → m ∈ results r →
                     ∃ t, Memory.type m = Some t ∧ t ∈ ts)) as Hrun.
    { intros limit Hlim Hcall.
      cbn in Hcall. unfold on_user_db in Hcall.
      destruct (recall _ _ _ _ _ _ _) as [db' [r|e]] eqn:Hrec;
        [|by simplify_eq].
      injection Hcall as <- <-. exists db', r. split_and!; [done|done|..].
      - apply (recall_length_le_limit _ _ _ _ _ _ _ _ _ Hrec). lra.
      - by eapply Htypes. }
    destruct (prop b "limit") as [| | |q| | |] eqn:Hl; try (by simplify_eq).
    + destruct (Hrun 10%Q) as (db' & r & Hrec & Hb & Hlen & Ht); [lra|done|].
      exists b, query, 10%Q, types, db', r.
      split_and!; [done|done|right; by auto|lra|lra|done..].
    + destruct (Hrun 10%Q) as (db' & r & Hrec & Hb & Hlen & Ht); [lra|done|].
      exists b, query, 10%Q, types, db', r.
      split_and!; [done|done|right; by auto|lra|lra|done..].
    + case_decide as Hq; [by simplify_eq|].
      assert (1 <= q <= 100)%Q as Hlim by (split; apply Qnot_lt_le; tauto).
      destruct (Hrun q) as (db' & r & Hrec & Hb & Hlen & Ht); [done..|].
      exists b, query, q, types, db', r.
      split_and!; [done|done|by left|apply Hlim|apply Hlim|done..].
Qed.

End RecallFacts.

(** ** The columns no call updates *)

Section FrameFacts.
Context `{RT : Runtime}.

Lemma touch_static now (r : MemoryRow) :
  static_columns (touch now r) = static_columns r.
Proof. done. Qed.

Lemma decay_static (r : MemoryRow) :
  static_columns (decay r) = static_columns r
  ∧ last_accessed (decay r) = last_accessed r.
Proof. unfold decay. by case_decide. Qed.

Lemma touch_all_static now rows (m : gmap string MemoryRow) k r' :
  touch_all now rows m !! k = Some r' →
  ∃ r, m !! k = Some r ∧ static_columns r' = static_columns r.
Proof.
  unfold touch_all. revert m.
  induction rows as [|kv rows IH]; intros m; cbn; [by eauto|].
  intros (r1 & Hr1 & ->)%IH. rewrite lookup_alter in Hr1.
  case_decide; [|by eauto]. subst k.
  destruct (m !! kv.1) as [r|]; [|done]. injection Hr1 as <-. by eauto.
Qed.

Lemma run_call_static (db : Db) c k r' :
  memories (run_call db c) !! k = Some r' →
  ∃ r, memories db !! k = Some r ∧ static_columns r' = static_columns r.
Proof.
  destruct c as [now t0 t1 query limit types|]; cbn [run_call].
  - rewrite recall_memories. destruct (search _ _ _ _); [|by eauto].
    apply touch_all_static.
  - rewrite consolidate_lookup. destruct (memories db !! k) as [r|]; [|done].
    case_decide; [done|]. intros [= <-]. exists r. split; [done|].
    apply decay_static.
Qed.

Lemma run_calls_static calls (db : Db) k r' :
  memories (run_calls calls db) !! k = Some r' →
  ∃ r, memories db !! k = Some r ∧ static_columns r' = static_columns r.
Proof.
  unfold run_calls. revert db.
  induction calls as [|c calls IH]; intros db; cbn; [by eauto|].
  intros (r1 & (r & Hr & Hs)%run_call_static & ->)%IH. by eauto.
Qed.

(** C8. [store] writes the importance, content, type, metadata and creation
    time of a record; the update of [recall] changes only the last-accessed
    time and the activation, the update of [consolidate] only the
    activation. A record that is still in the table after any sequence of
    [recall] and [consolidate] calls therefore has these five columns as
    [store] wrote them. *)
Theorem static_columns_never_change :
  (∀ now r, static_columns (touch now r) = static_columns r)
  ∧ (∀ r, static_columns (decay r) = static_columns r
          ∧ last_accessed (decay r) = last_accessed r)
  ∧ (∀ calls (db : Db) k r',
       memories (run_calls calls db) !! k = Some r' →
       ∃ r, memories db !! k = Some r
            ∧ importance r' = importance r ∧ content r' = content r
            ∧ type r' = type r ∧ metadata r' = metadata r
            ∧ created_at r' = created_at r)
  ∧ (∀ uuid now c ty imp md (db db1 : Db) resp calls r',
       store uuid now c ty imp md db = (db1, Returned resp) →
       memories (run_calls calls db1) !! store_id resp = Some r' →
       importance r' = default 0.5%Q imp
       ∧ content r' = c
       ∧ Some (type r') =
           bind_text (match ty with JUndefined => JStr "factual" | v => v end)
       ∧ metadata r' = (if truthy md then Some (JSON_stringify md) else None)
       ∧ created_at r' = now).
Proof.
  split_and!.
  - apply touch_static.
  - apply decay_static.
  - intros calls db k r' (r & Hr & Hs)%run_calls_static.
    exists r. unfold static_columns in Hs. by simplify_eq.
  - intros uuid now c ty imp md db db1 resp calls r'. unfold store.
    destruct (bind_text _) as [ty'|] eqn:Hty; [|done].
    destruct (memories db !! uuid) eqn:E; [done|].
    intros [= <- <-]. cbn [store_id].
    intros (r & Hr & Hs)%run_calls_static.
    cbn in Hr. rewrite lookup_insert_eq in Hr. injection Hr as <-.
    unfold static_columns in Hs. cbn in Hs. by simplify_eq.
Qed.

End FrameFacts.

(** ** The authentication wrapper *)

Section AuthFacts.
Context `{RT : Runtime}.

(** [validateApiKey] leaves the usage log and the state of the usage
    queries alone. *)
Lemma validateApiKey_usage env now apiKey (sb sb' : Supabase) o :
  validateApiKey env now apiKey sb = (sb', o) →
  usage_log sb' = usage_log sb
  ∧ usage_count_fails sb' = usage_count_fails sb
  ∧ usage_insert_fails sb' = usage_insert_fails sb.
Proof.
  unfold validateApiKey. intros H. case_all.
Qed.

Lemma recent_usage_ext now uid (sb sb' : Supabase) :
  usage_log sb' = usage_log sb → recent_usage now uid sb' = recent_usage now uid sb.
Proof. unfold recent_usage. by intros ->. Qed.

Lemma logUsage_Returned env now uid endpoint (sb : Supabase) :
  getSupabaseAdmin env = true →
  ∃ sb2, logUsage env now uid endpoint sb = Returned sb2
         ∧ usage_count_fails sb2 = usage_count_fails sb
         ∧ api_keys sb2 = api_keys sb.
Proof.
  intros Henv. unfold logUsage. rewrite Henv. cbn.
  destruct (usage_insert_fails sb); eauto.
Qed.

Lemma checkQuota_Returned env now uid t (sb : Supabase) :
  getSupabaseAdmin env = true → ∃ q, checkQuota env now uid t sb = Returned q.
Proof.
  intros Henv. unfold checkQuota. rewrite Henv. cbn.
  destruct (usage_count_fails sb); [by eauto|].
  destruct (tier_limit env t); eauto.
Qed.

(** A request that [authenticateRequest] lets through ran [checkQuota], so
    the Supabase client could be built. *)
Lemma authenticateRequest_inl env now req (sb sb1 : Supabase) auth :
  authenticateRequest env now req sb = (sb1, Returned (inl auth)) →
  getSupabaseAdmin env = true.
Proof.
  unfold authenticateRequest, checkQuota. intros H.
  destruct (getSupabaseAdmin env); [done|]. case_all.
Qed.

(** What [withAuth] does with a request that passed authentication: it logs
    the call, runs the handler on the stores, and sends the handler's
    response with the remaining-quota header, or a 500 if the handler threw. *)
Lemma withAuth_authenticated handler env now req (w : World) sb1 auth :
  authenticateRequest env now req (supabase w) = (sb1, Returned (inl auth)) →
  ∃ sb2 q,
    logUsage env now (userId auth) (pathname req) sb1 = Returned sb2
    ∧ checkQuota env now (userId auth) (tier auth) sb2 = Returned q
    ∧ withAuth handler env now req w =
        ({| supabase := sb2; stores := (handler req auth (stores w)).1 |},
         Returned
           match (handler req auth (stores w)).2 with
           | Returned response =>
               set_header "X-RateLimit-Remaining"
                          (remaining_to_string (remaining q)) response
           | Thrown _ =>
               error_response "Internal server error" "INTERNAL_ERROR" 500
           end).
Proof.
  intros Hauth. pose proof (authenticateRequest_inl _ _ _ _ _ _ Hauth) as Henv.
  destruct (logUsage_Returned env now (userId auth) (pathname req) sb1 Henv)
    as (sb2 & Hlog & _).
  destruct (checkQuota_Returned env now (userId auth) (tier auth) sb2 Henv)
    as (q & Hq).
  exists sb2, q. split_and!; [done..|].
  unfold withAuth. rewrite Hauth, Hlog, Hq.
  by destruct (handler req auth (stores w)) as [st' [response|e]].
Qed.

End AuthFacts.

(** ** Validation at the boundary *)

Section RouteFacts.
Context `{RT : Runtime}.

(** C7. A store request whose [content] is a string of more than 10000
    characters is answered with status 400 and code [VALIDATION_ERROR];
    the stores are left as they were and the answer is the same whatever the
    memory service is, so the service is not called. Behind [withAuth] the
    same holds for every request that passed authentication. *)
Theorem store_rejects_long_content
    (svc : string → MemoryService) req auth (st : Stores) b c :
  json req = Some b →
  get_prop b "content" = Some (JStr c) →
  10000 < Z.of_nat (String.length c) →
  let answer :=
    {| status := 400;
       body := ErrorBody
                 {| error := dq +:+ "content" +:+ dq
                             +:+ " must be less than 10000 characters";
                    code := "VALIDATION_ERROR"; details := None |};
       headers := [content_type_json] |} in
  StoreRoute.handler svc req auth st = (st, Returned answer)
  ∧ (∀ env now (w : World) sb1,
       stores w = st →
       authenticateRequest env now req (supabase w) = (sb1, Returned (inl auth)) →
       ∃ w' resp,
         StoreRoute.POST svc env now req w = (w', Returned resp)
         ∧ status resp = 400 ∧ body resp = body answer
         ∧ stores w' = stores w).
Proof.
  intros Hjson Hc Hlen answer.
  assert (StoreRoute.handler svc req auth st = (st, Returned answer)) as Hh.
  { unfold StoreRoute.handler. rewrite Hjson, Hc.
    destruct (String.eqb_spec c "") as [->|_]; [cbn in Hlen; lia|].
    by rewrite decide_True by done. }
  split; [done|]. intros env now w sb1 <- Hauth.
  unfold StoreRoute.POST.
  destruct (withAuth_authenticated (StoreRoute.handler svc) _ _ _ _ _ _ Hauth)
    as (sb2 & q & _ & _ & ->).
  rewrite Hh. by eexists _, _.
Qed.

End RouteFacts.

(** ** Quota *)

Section QuotaFacts.
Context `{RT : Runtime}.

(** C9, as the code has it. A request with a valid key, whose usage-count
    query is answered and counts at least as many calls in the last 60
    seconds as the ceiling of the caller's tier, is refused: status 429,
    code [RATE_LIMITED], headers [Retry-After: 60] and
    [X-RateLimit-Remaining: 0]. The answer and the state are the same
    whatever the handler is: the handler is not called, nothing is logged
    and no store changes. *)
Theorem rate_limit_refuses_at_ceiling
    (handler : Handler) env now req (w : World) apiKey sb1 v u limit :
  extractBearerToken (authorization req) = Some apiKey →
  validateApiKey env now apiKey (supabase w) = (sb1, Returned v) →
  valid v = true → user v = Some u →
  getSupabaseAdmin env = true →
  usage_count_fails (supabase w) = false →
  tier_limit env (tier u) = Some limit →
  limit ≤ recent_usage now (userId u) (supabase w) →
  ∃ resp e,
    withAuth handler env now req w =
      ({| supabase := sb1; stores := stores w |}, Returned resp)
    ∧ resp = rate_limited now (tier u)
    ∧ status resp = 429
    ∧ body resp = ErrorBody e ∧ code e = "RATE_LIMITED"
    ∧ ("Retry-After", "60") ∈ headers resp
    ∧ ("X-RateLimit-Remaining", "0") ∈ headers resp
    ∧ usage_log sb1 = usage_log (supabase w).
Proof.
  intros Htok Hval Hvalid Huser Henv Hup Hlim Hused.
  destruct (validateApiKey_usage _ _ _ _ _ _ Hval) as (Hlog & Hcnt & _).
  eexists _, _. split_and!; [|reflexivity|reflexivity|reflexivity|reflexivity|..].
  - unfold withAuth, authenticateRequest. rewrite Htok, Hval, Hvalid, Huser.
    unfold checkQuota. rewrite Henv, Hcnt, Hup, Hlim. cbn.
    rewrite (recent_usage_ext _ _ _ _ Hlog).
    rewrite bool_decide_eq_false_2 by lia. done.
  - cbn. set_solver.
  - cbn. set_solver.
  - done.
Qed.

(** C10. When the usage-count query fails, [checkQuota] answers that the
    request is allowed; a request with a valid key is then logged and handed
    to the handler, whose effect on the stores and whose response (with the
    remaining-quota header, or as a 500 if it threw) are what [withAuth]
    returns. *)
Theorem quota_check_fails_open env now (sb : Supabase) :
  getSupabaseAdmin env = true →
  usage_count_fails sb = true →
  (∀ uid t, checkQuota env now uid t sb =
              Returned {| allowed := true; remaining := Some 0 |})
  ∧ (∀ (handler : Handler) req (w : World) apiKey sb1 v u,
       supabase w = sb →
       extractBearerToken (authorization req) = Some apiKey →
       validateApiKey env now apiKey sb = (sb1, Returned v) →
       valid v = true → user v = Some u →
       ∃ sb2,
         authenticateRequest env now req sb = (sb1, Returned (inl u))
         ∧ logUsage env now (userId u) (pathname req) sb1 = Returned sb2
         ∧ withAuth handler env now req w =
             ({| supabase := sb2; stores := (handler req u (stores w)).1 |},
              Returned
                match (handler req u (stores w)).2 with
                | Returned response =>
                    set_header "X-RateLimit-Remaining" "0" response
                | Thrown _ =>
                    error_response "Internal server error" "INTERNAL_ERROR" 500
                end)).
Proof.
  intros Henv Hfail.
  assert (∀ sb', usage_count_fails sb' = true → ∀ uid t,
            checkQuota env now uid t sb' =
              Returned {| allowed := true; remaining := Some 0 |}) as Hopen.
  { intros sb' Hf uid t. unfold checkQuota. by rewrite Henv, Hf. }
  split; [by apply Hopen|].
  intros handler req w apiKey sb1 v u Hw Htok Hval Hvalid Huser.
  destruct (validateApiKey_usage _ _ _ _ _ _ Hval) as (_ & Hcnt & _).
  rewrite Hfail in Hcnt.
  assert (authenticateRequest env now req sb = (sb1, Returned (inl u))) as Hauth.
  { unfold authenticateRequest.
    rewrite Htok, Hval, Hvalid, Huser, (Hopen sb1 Hcnt). done. }
  rewrite <-Hw in Hauth.
  destruct (withAuth_authenticated handler _ _ _ _ _ _ Hauth)
    as (sb2 & q & Hlog & Hq & ->).
  destruct (logUsage_Returned env now (userId u) (pathname req) sb1 Henv)
    as (sb2' & Hlog' & Hcnt2 & _).
  rewrite Hlog in Hlog'. injection Hlog' as <-.
  rewrite Hopen in Hq by congruence. injection Hq as <-.
  exists sb2. rewrite <-Hw. by split_and!.
Qed.

End QuotaFacts.

Section RecallRouteFacts.
Context `{RT : Runtime}.

(** The recall route hands [recall] a limit between 1 and 100 only, so a
    successful answer of the route holds at most 100 records, and at most
    [limit] of them. *)
Lemma recall_handler_bounds amb req auth (st st' : Stores) resp :
  RecallRoute.handler (getMemoryService amb) req auth st = (st', Returned resp) →
  status resp = 200 →
  ∃ r limit, body resp = RecallBody r
             ∧ (1 <= limit <= 100)%Q
             ∧ (inject_Z (Z.of_nat (length (results r))) <= limit)%Q.
Proof.
  unfold RecallRoute.handler. intros H Hst.
  destruct (json req) as [b|]; [|by simplify_eq].
  destruct (get_prop b "query") as [[| | | |query| |]|];
    try (by simplify_eq).
  destruct (String.eqb query ""); [by simplify_eq|].
  assert (∀ limit, (1 <= limit <= 100)%Q →
            match check_types (prop b "types") with
            | inr msg => (st, Returned (validation_error_response msg))
            | inl types =>
                match svc_recall (getMemoryService amb (userId auth))
                                 query limit types st with
                | (st', Returned r) =>
                    (st', Returned (json_response (RecallBody r) 200))
                | (st', Thrown e) => (st', Thrown e)
                end
            end = (st', Returned resp) →
            ∃ r limit, body resp = RecallBody r ∧ (1 <= limit <= 100)%Q
              ∧ (inject_Z (Z.of_nat (length (results r))) <= limit)%Q) as Hrun.
  { intros limit Hlim Hcall.
    destruct (check_types _) as [types|msg]; [|by simplify_eq].
    cbn in Hcall. unfold on_user_db in Hcall.
    destruct (recall _ _ _ _ _ _ _) as [db' [r|e]] eqn:Hrec; [|by simplify_eq].
    injection Hcall as <- <-. exists r, limit. split_and!; [done|apply Hlim..|].
    apply (recall_length_le_limit _ _ _ _ _ _ _ _ _ Hrec). lra. }
  destruct (prop b "limit") as [| | |q| | |]; try (by simplify_eq).
  - apply (Hrun 10%Q); [lra|done].
  - apply (Hrun 10%Q); [lra|done].
  - case_decide as Hq; [by simplify_eq|]. apply (Hrun q); [|done].
    split; apply Qnot_lt_le; tauto.
Qed.

End RecallRouteFacts.

(** * Further properties of the memory service *)

Section StoreFacts.
Context `{RT : Runtime}.

(** A [store] that returns, taken apart. *)
Lemma store_Returned uuid now c ty imp md (db db' : Db) resp :
  store uuid now c ty imp md db = (db', Returned resp) →
  ∃ ty',
    bind_text (match ty with JUndefined => JStr "factual" | v => v end)
      = Some ty'
    ∧ memories db !! uuid = None
    ∧ resp = {| store_id := uuid; success := true |}
    ∧ memories db'
      = <[uuid := {| content := c; type := ty'; importance := default 0.5%Q imp;
                     activation := 1; created_at := now;
                     last_accessed := None;
                     metadata := if truthy md then Some (JSON_stringify md)
                                 else None |}]> (memories db).
Proof.
  unfold store. destruct (bind_text _) as [ty'|]; [|done].
  destruct (memories db !! uuid) eqn:E; [done|].
  intros [= <- <-]. by exists ty'.
Qed.

(** X1. A [store] that returns has added exactly one record, under the
    returned id, which was free: the record holds the given content and
    time, activation 1 and no last-accessed time; every other key holds what
    it held, and the table has one record more. *)
Theorem store_adds_one_record uuid now c ty imp md (db db' : Db) resp :
  store uuid now c ty imp md db = (db', Returned resp) →
  store_id resp = uuid ∧ success resp = true
  ∧ memories db !! uuid = None
  ∧ (∃ r, memories db' !! uuid = Some r
          ∧ content r = c ∧ created_at r = now
          ∧ importance r = default 0.5%Q imp
          ∧ activation r = 1%Q ∧ last_accessed r = None)
  ∧ (∀ k, k ≠ uuid → memories db' !! k = memories db !! k)
  ∧ size (memories db') = S (size (memories db)).
Proof.
  unfold store. destruct (bind_text _) as [ty'|]; [|done].
  destruct (memories db !! uuid) eqn:E; [done|].
  intros [= <- <-]. cbn. split_and!; try done.
  - eexists. rewrite lookup_insert_eq. by split_and!.
  - intros k Hk. by rewrite lookup_insert_ne.
  - by apply map_size_insert_None.
Qed.

(** X2. [store] never overwrites: whatever its outcome, every record of the
    table is still there unchanged; and when the id is already taken the
    call throws and leaves the database as it was. *)
Theorem store_never_overwrites uuid now c ty imp md (db : Db) :
  (∀ k r, memories db !! k = Some r →
          memories (store uuid now c ty imp md db).1 !! k = Some r)
  ∧ (is_Some (memories db !! uuid) →
     ∃ e, store uuid now c ty imp md db = (db, Thrown e)).
Proof.
  unfold store. split.
  - intros k r Hk. destruct (bind_text _) as [ty'|]; [|done].
    destruct (memories db !! uuid) eqn:E; [done|]. cbn.
    rewrite lookup_insert_ne; [done|]. congruence.
  - intros [r Hr]. destruct (bind_text _) as [ty'|]; [|by eauto].
    rewrite Hr. by eauto.
Qed.

End StoreFacts.

Section RecallFrame.
Context `{RT : Runtime}.

Lemma touch_all_dom now rows (m : gmap string MemoryRow) :
  dom (touch_all now rows m) = dom m.
Proof.
  unfold touch_all. revert m.
  induction rows as [|kv rows IH]; intros m; cbn; [done|].
  by rewrite IH, dom_alter_L.
Qed.

Lemma touch_all_lookup_notin now rows (m : gmap string MemoryRow) k :
  k ∉ rows.*1 → touch_all now rows m !! k = m !! k.
Proof.
  unfold touch_all. revert m.
  induction rows as [|kv rows IH]; intros m Hk; cbn; [done|].
  apply not_elem_of_cons in Hk as [Hne Hk].
  rewrite IH by done. by rewrite lookup_alter_ne.
Qed.

Lemma results_ids rows res :
  Forall2 (λ kv m, to_memory kv = Some m) rows res →
  Memory.id <$> res = rows.*1.
Proof.
  induction 1 as [|kv m rows res Hm _ IH]; [done|].
  cbn. rewrite IH. f_equal. by apply to_memory_Some in Hm as (-> & _).
Qed.

(** X3. [recall] neither adds nor deletes records and leaves the search
    index alone; the records it does not return keep every column; and when
    the search statement is rejected the database is as it was. *)
Theorem recall_changes_returned_rows_only
    now t0 t1 query limit types (db db' : Db) o :
  recall now t0 t1 query limit types db = (db', o) →
  dom (memories db') = dom (memories db)
  ∧ memories_fts db' = memories_fts db
  ∧ (∀ resp k, o = Returned resp → k ∉ Memory.id <$> results resp →
               memories db' !! k = memories db !! k)
  ∧ (search query limit types db = None → db' = db ∧ o = Thrown "SqliteError").
Proof.
  unfold recall. destruct (search _ _ _ _) as [rows|] eqn:Hs.
  - destruct (mapM _ _) as [res|] eqn:Hres; intros [= <- <-]; cbn;
      (split; [apply touch_all_dom|split; [done|split; [|done]]]).
    + intros resp k [= <-] Hk. cbn in Hk.
      apply mapM_Some in Hres. rewrite (results_ids _ _ Hres) in Hk.
      by apply touch_all_lookup_notin.
    + by intros resp k [=].
  - intros [= <- <-]. by split_and!.
Qed.

(** Sortedness carries over from the rows to what is made of them. *)
Lemma StronglySorted_Forall2 {A B} (R : relation A) (R' : relation B)
    (P : A → B → Prop) l k :
  (∀ x y a b, P x a → P y b → R x y → R' a b) →
  Forall2 P l k → StronglySorted R l → StronglySorted R' k.
Proof.
  intros HR H. induction H as [|x a l k Hxa Hlk IH]; [constructor|].
  intros [Hall Hs]%StronglySorted_cons. apply StronglySorted_cons.
  split; [|by apply IH].
  clear IH Hs. induction Hlk as [|y b l k Hyb _ IH]; [constructor|].
  apply Forall_cons in Hall as [Hxy Hall].
  constructor; [by eapply HR|by apply IH].
Qed.

Lemma activation_desc_total : Total activation_desc.
Proof.
  intros x y. unfold activation_desc.
  destruct (Qlt_le_dec (activation x.2) (activation y.2)) as [H|H];
    [right; by apply Qlt_le_weak|by left].
Qed.

Lemma activation_desc_trans : Transitive activation_desc.
Proof.
  intros x y z. unfold activation_desc. intros Hxy Hyz.
  by apply Qle_trans with (activation y.2).
Qed.

Lemma select_rows_StronglySorted keep n (db : Db) :
  StronglySorted activation_desc (select_rows keep n db).
Proof.
  unfold select_rows, sql_limit, order_by_activation_desc.
  set (l := merge_sort _ _).
  assert (StronglySorted activation_desc l) as Hl
    by (apply StronglySorted_merge_sort;
        [apply activation_desc_trans|apply activation_desc_total]).
  case_decide; [done|].
  rewrite <-(take_drop (Z.to_nat n) l) in Hl.
  by apply StronglySorted_app_1_l in Hl.
Qed.

(** X4. The records [recall] returns are in descending order of the
    activation they carry, and no id occurs twice among them. *)
Theorem recall_results_sorted_distinct
    now t0 t1 query limit types (db db' : Db) resp :
  recall now t0 t1 query limit types db = (db', Returned resp) →
  StronglySorted (λ a b, Memory.activation b <= Memory.activation a)%Q
                 (results resp)
  ∧ NoDup (Memory.id <$> results resp).
Proof.
  intros (rows & Hs & _ & Hres)%recall_Returned.
  destruct (search_Some _ _ _ _ _ Hs) as (keep & n & _ & ->).
  split.
  - eapply StronglySorted_Forall2;
      [|exact Hres|apply select_rows_StronglySorted].
    intros x y a b (_ & -> & _)%to_memory_Some (_ & -> & _)%to_memory_Some.
    done.
  - rewrite (results_ids _ _ Hres). apply select_rows_NoDup.
Qed.

Lemma select_rows_top keep n (db : Db) k r :
  memories db !! k = Some r → keep k r = true →
  (k, r) ∉ select_rows keep n db →
  0 ≤ n ∧ length (select_rows keep n db) = Z.to_nat n
  ∧ ∀ kv, kv ∈ select_rows keep n db → (activation r <= activation kv.2)%Q.
Proof.
  unfold select_rows, sql_limit, order_by_activation_desc.
  set (l := merge_sort _ _). intros Hk Hkeep Hnot.
  assert ((k, r) ∈ l) as Hin.
  { unfold l. rewrite merge_sort_Permutation. apply list_elem_of_filter.
    split; [cbn; by rewrite Hkeep|by apply elem_of_map_to_list]. }
  assert (StronglySorted activation_desc l) as Hl
    by (apply StronglySorted_merge_sort;
        [apply activation_desc_trans|apply activation_desc_total]).
  case_decide as Hn; [done|].
  rewrite <-(take_drop (Z.to_nat n) l) in Hin, Hl.
  apply elem_of_app in Hin as [Hin|Hin]; [done|].
  split_and!; [lia| |].
  - rewrite length_take. apply Nat.min_l.
    destruct (decide (Z.to_nat n ≤ length l)%nat) as [|Hlen]; [done|].
    rewrite drop_ge in Hin by lia. by apply elem_of_nil in Hin.
  - intros kv Hkv.
    apply (StronglySorted_app_1_elem_of _ _ _ _ _ Hl Hkv Hin).
Qed.

(** X5. [recall] returns the most activated matches: a record of the table
    that passes the [WHERE] clause of the statement that ran is left out
    only when the limit is reached, and then every returned record has at
    least its activation. *)
Theorem recall_returns_top_matches
    now t0 t1 query limit types (db db' : Db) resp :
  recall now t0 t1 query limit types db = (db', Returned resp) →
  ∃ keep, recall_matches query types db keep
    ∧ ∀ k r, memories db !! k = Some r → keep k r = true →
             k ∉ Memory.id <$> results resp →
             (inject_Z (Z.of_nat (length (results resp))) == limit)%Q
             ∧ ∀ m, m ∈ results resp →
                    (activation r <= Memory.activation m)%Q.
Proof.
  intros (rows & Hs & _ & Hres)%recall_Returned.
  assert (∃ keep n, recall_matches query types db keep
                    ∧ to_integer limit = Some n
                    ∧ rows = select_rows keep n db) as (keep & n & Hm & Hn & ->).
  { unfold search in Hs. unfold recall_matches.
    case_decide; simplify_option_eq; eexists _, _; split_and!; eauto. }
  exists keep. split; [done|]. intros k r Hk Hkeep Hnot.
  rewrite (results_ids _ _ Hres) in Hnot.
  assert ((k, r) ∉ select_rows keep n db) as Hnot'.
  { intros Hin. apply Hnot. by apply (list_elem_of_fmap_2 fst _ (k, r)). }
  destruct (select_rows_top _ _ _ _ _ Hk Hkeep Hnot') as (Hn0 & Hlen & Htop).
  split.
  - rewrite <-(Forall2_length _ _ _ Hres), Hlen, (to_integer_Some _ _ Hn).
    by rewrite Z2Nat.id.
  - intros m Hin. apply list_elem_of_lookup in Hin as [i Hi].
    destruct (Forall2_lookup_r _ _ _ _ _ Hres Hi) as (kv & Hkv & Hmem).
    apply to_memory_Some in Hmem as (_ & -> & _).
    apply Htop. eapply list_elem_of_lookup; eauto.
Qed.

End RecallFrame.

Section Lifetime.
Context `{RT : Runtime}.

(** One [consolidate] on the row under a key. *)
Lemma consolidate_iter_lookup n (db : Db) k :
  memories (Nat.iter n (λ d, (consolidate d).1) db) !! k =
    Nat.iter n (λ o, r ← o;
                     if decide (is_forgotten (decay r)) then None
                     else Some (decay r))
             (memories db !! k).
Proof.
  induction n as [|n IH]; [done|].
  rewrite !Nat.iter_succ, consolidate_lookup, IH.
  by destruct (Nat.iter n _ _).
Qed.

Lemma decayed_power n : (decayed n == 0.95 ^ Z.of_nat n)%Q.
Proof.
  induction n as [|n IH]; [done|].
  unfold decayed in *. rewrite Nat.iter_succ, IH.
  rewrite Nat2Z.inj_succ, <-Z.add_1_r, Qpower_plus by done.
  reflexivity.
Qed.

Lemma iter_decay_survives n (r : MemoryRow) :
  activation r = 1%Q → stays_above (S n) = true →
  Nat.iter n (λ o, r ← o;
                   if decide (is_forgotten (decay r)) then None
                   else Some (decay r)) (Some r)
  = Some (with_activation (decayed n) r).
Proof.
  intros Hr. induction n as [|n IH]; intros Hab.
  { cbn. rewrite <-Hr. by rewrite with_activation_same. }
  unfold stays_above in *. rewrite seq_S, forallb_app in Hab.
  apply andb_true_iff in Hab as [Hn Hlast].
  rewrite Nat.iter_succ, IH by done. cbn [mbind option_bind].
  assert (0.01 < decayed n)%Q as Hgt.
  { rewrite seq_S, forallb_app in Hn. apply andb_true_iff in Hn as [_ Hn].
    cbn in Hn. rewrite andb_true_r in Hn. by apply bool_decide_eq_true in Hn. }
  assert (0.01 < decayed (S n))%Q as Hgt'.
  { cbn in Hlast. rewrite andb_true_r in Hlast.
    by apply bool_decide_eq_true in Hlast. }
  unfold decay. cbn [activation with_activation].
  destruct (decide (FORGET_THRESHOLD < decayed n)%Q) as [_|Hn']; [|by destruct Hn'].
  rewrite decide_False; [done|].
  unfold is_forgotten. cbn [activation with_activation].
  apply Qle_not_lt, Qlt_le_weak, Hgt'.
Qed.

(** X6. A record whose activation is 1 and that no [recall] returns is still
    in the table after each of the next 89 consolidations, with activation
    [0.95^n] after the [n]-th, and is deleted by the 90th. *)
Theorem unrecalled_record_forgotten_at_90 (db : Db) k r :
  memories db !! k = Some r → activation r = 1%Q →
  (∀ n, (n ≤ 89)%nat →
     ∃ r', memories (Nat.iter n (λ d, (consolidate d).1) db) !! k = Some r'
           ∧ (activation r' == 0.95 ^ Z.of_nat n)%Q
           ∧ static_columns r' = static_columns r)
  ∧ memories (Nat.iter 90 (λ d, (consolidate d).1) db) !! k = None.
Proof.
  intros Hk Hr.
  assert (stays_above 90 = true) as H90 by (vm_compute; reflexivity).
  assert (∀ n, (n ≤ 89)%nat → stays_above (S n) = true) as Hab.
  { intros n Hn. unfold stays_above in *.
    replace 90%nat with (S n + (89 - n))%nat in H90 by lia.
    rewrite seq_app, forallb_app in H90.
    by apply andb_true_iff in H90 as [H90 _]. }
  split.
  - intros n Hn. rewrite consolidate_iter_lookup, Hk.
    rewrite iter_decay_survives by auto.
    eexists. split_and!; [done|apply decayed_power|done].
  - change 90%nat with (S 89). rewrite Nat.iter_succ.
    rewrite consolidate_lookup, consolidate_iter_lookup, Hk.
    rewrite iter_decay_survives by auto.
    unfold decay. cbn [activation with_activation mbind option_bind].
    destruct (decide (FORGET_THRESHOLD < decayed 89)%Q) as [_|Hn'];
      [|destruct Hn'; by vm_compute].
    rewrite decide_True; [done|]. by vm_compute.
Qed.

End Lifetime.

(** * Further properties of the authentication layer *)

Section SplitFacts.

Lemma append_empty_r s : s +:+ "" = s.
Proof.
  induction s as [|c s IH]; [done|].
  change (String c s +:+ "") with (String c (s +:+ "")). by rewrite IH.
Qed.

Lemma js_split_nonempty sep s : js_split sep s ≠ [].
Proof.
  destruct s as [|c s]; cbn; [done|].
  destruct (Ascii.eqb c sep); [done|]. by destruct (js_split sep s).
Qed.

(** The first piece of a split, and what is left after the separator. *)
Lemma js_split_cons sep s a l :
  js_split sep s = a :: l →
  (sep ∉ chars a)
  ∧ match l with
    | [] => s = a
    | _ => ∃ s', s = a +:+ String sep s' ∧ js_split sep s' = l
    end.
Proof.
  revert a l. induction s as [|c s IH]; intros a l; cbn.
  { intros [= <- <-]. split; [|done]. apply not_elem_of_nil. }
  destruct (Ascii.eqb_spec c sep) as [->|Hne].
  - intros [= <- <-]. split; [apply not_elem_of_nil|].
    pose proof (js_split_nonempty sep s).
    destruct (js_split sep s) eqn:E; [done|]. by exists s.
  - destruct (js_split sep s) as [|w ws] eqn:E; [by apply js_split_nonempty in E|].
    intros [= <- <-]. destruct (IH w ws eq_refl) as [Hw Hrest]. split.
    + cbn. apply not_elem_of_cons. split; [congruence|done].
    + destruct ws; [by rewrite Hrest|].
      destruct Hrest as (s' & -> & Hs'). by exists s'.
Qed.

Lemma js_split_single sep a : sep ∉ chars a → js_split sep a = [a].
Proof.
  induction a as [|c a IH]; cbn; [done|].
  intros [Hc Ha]%not_elem_of_cons.
  destruct (Ascii.eqb_spec c sep) as [->|_]; [done|]. by rewrite IH.
Qed.

Lemma js_split_app sep a s :
  sep ∉ chars a → js_split sep (a +:+ String sep s) = a :: js_split sep s.
Proof.
  induction a as [|c a IH].
  { intros _. change ("" +:+ String sep s) with (String sep s).
    cbn [js_split]. destruct (Ascii.eqb_spec sep sep); [done|congruence]. }
  intros [Hc Ha]%not_elem_of_cons.
  change (String c a +:+ String sep s) with (String c (a +:+ String sep s)).
  cbn [js_split].
  destruct (Ascii.eqb_spec c sep) as [->|_]; [done|]. by rewrite IH.
Qed.

Lemma toLowerCase_keeps_space s :
  " "%char ∈ chars s → " "%char ∈ chars (toLowerCase s).
Proof.
  induction s as [|c s IH]; cbn; [done|].
  intros [<-|Hin]%elem_of_cons; [by left|right; by apply IH].
Qed.

Lemma bearer_scheme_no_space scheme :
  toLowerCase scheme = "bearer" → " "%char ∉ chars scheme.
Proof.
  intros Hs Hin%toLowerCase_keeps_space. rewrite Hs in Hin.
  cbn in Hin.
  repeat (apply elem_of_cons in Hin as [Hin|Hin]; [done|]).
  by apply elem_of_nil in Hin.
Qed.

(** X7. [extractBearerToken] and the header it reads. A token comes back
    only from a header made of a scheme that is "bearer" up to case, one
    space, and the token, which is not empty and has no space; whatever
    follows a further space is dropped. Conversely every such header yields
    its token. *)
Theorem extractBearerToken_reads_token :
  (∀ h t, extractBearerToken h = Some t →
     t ≠ "" ∧ (" "%char ∉ chars t)
     ∧ ∃ scheme rest, toLowerCase scheme = "bearer"
         ∧ (rest = "" ∨ ∃ rest', rest = String " " rest')
         ∧ h = Some (scheme +:+ " " +:+ t +:+ rest))
  ∧ (∀ scheme t rest,
       toLowerCase scheme = "bearer" → t ≠ "" → " "%char ∉ chars t →
       (rest = "" ∨ ∃ rest', rest = String " " rest') →
       extractBearerToken (Some (scheme +:+ " " +:+ t +:+ rest)) = Some t).
Proof.
  split.
  - intros [h|] t; [|done]. unfold extractBearerToken.
    destruct (String.eqb h ""); [done|].
    destruct (js_split " " h) as [|scheme [|token l]] eqn:E; [done..|].
    destruct (String.eqb_spec (toLowerCase scheme) "bearer") as [Hs|]; [|done].
    destruct (String.eqb_spec token "") as [|Ht]; [done|].
    cbn. intros [= <-].
    destruct (js_split_cons _ _ _ _ E) as (_ & h' & -> & E').
    destruct (js_split_cons _ _ _ _ E') as (Htok & Hrest).
    split_and!; [done..|]. exists scheme.
    destruct l.
    + subst h'. exists "". split_and!; [done|by left|].
      by rewrite append_empty_r.
    + destruct Hrest as (s' & -> & _). exists (String " " s').
      split_and!; [done|by eauto|done].
  - intros scheme t rest Hs Ht Hsp Hrest. unfold extractBearerToken.
    destruct (String.eqb_spec (scheme +:+ " " +:+ t +:+ rest) "") as [He|_].
    { destruct scheme; [done|discriminate]. }
    change (scheme +:+ " " +:+ t +:+ rest)
      with (scheme +:+ String " " (t +:+ rest)).
    rewrite js_split_app by by apply bearer_scheme_no_space.
    assert (∃ l, js_split " " (t +:+ rest) = t :: l) as [l ->].
    { destruct Hrest as [->|[rest' ->]].
      - rewrite append_empty_r, js_split_single by done. by eauto.
      - rewrite js_split_app by done. by eauto. }
    rewrite Hs. cbn. by destruct (String.eqb_spec t "").
Qed.

End SplitFacts.

Section GateFacts.
Context `{RT : Runtime}.

(** X8. A request without a usable bearer token is answered 401 with code
    [UNAUTHORIZED] before anything else happens: the key table, the usage
    log and the stores are as they were, whatever the handler and even when
    Supabase is not configured. *)
Theorem missing_token_is_unauthorized
    (handler : Handler) env now req (w : World) :
  extractBearerToken (authorization req) = None →
  ∃ e, withAuth handler env now req w
         = (w, Returned {| status := 401; body := ErrorBody e;
                           headers := [content_type_json] |})
       ∧ code e = "UNAUTHORIZED"
       ∧ error e = "Missing or invalid Authorization header".
Proof.
  intros Htok. unfold withAuth, authenticateRequest. rewrite Htok.
  eexists. split_and!; [destruct w; reflexivity|reflexivity..].
Qed.

(** X9. A token that is not the test key and whose digest matches no row, or
    more than one row, of the key table is answered 401 with code
    [UNAUTHORIZED]; no key is touched, nothing is logged, no store changes
    and the handler does not run. *)
Theorem unknown_key_is_unauthorized
    (handler : Handler) env now req (w : World) apiKey :
  extractBearerToken (authorization req) = Some apiKey →
  TEST_API_KEY env ≠ Some apiKey →
  getSupabaseAdmin env = true →
  length (filter (λ k, key_hash k = sha256_hex apiKey)
                 (api_keys (supabase w))) ≠ 1%nat →
  ∃ e, withAuth handler env now req w
         = (w, Returned {| status := 401; body := ErrorBody e;
                           headers := [content_type_json] |})
       ∧ code e = "UNAUTHORIZED"
       ∧ error e = "Invalid API key".
Proof.
  intros Htok Htest Henv Hrows.
  unfold withAuth, authenticateRequest, validateApiKey.
  rewrite Htok, Henv, bool_decide_eq_false_2, andb_false_r by done. cbn.
  destruct (key_select_fails (supabase w)).
  - eexists. split_and!; [destruct w; reflexivity|reflexivity..].
  - destruct (filter _ _) as [|k [|k' l]] eqn:E; [|done|];
      (eexists; split_and!; [destruct w; reflexivity|reflexivity..]).
Qed.

(** X10. With the test key configured but not Supabase, a request carrying
    the test key is not served: the quota check that follows the key check
    throws, outside the [try] of [withAuth], so the call rejects. *)
Theorem test_key_needs_supabase
    (handler : Handler) env now req (w : World) apiKey :
  extractBearerToken (authorization req) = Some apiKey →
  TEST_API_KEY env = Some apiKey → apiKey ≠ "" →
  getSupabaseAdmin env = false →
  withAuth handler env now req w
    = (w, Thrown "Missing Supabase environment variables").
Proof.
  intros Htok Htest Hne Henv.
  unfold withAuth, authenticateRequest, validateApiKey, checkQuota.
  rewrite Htok, Htest, Henv. cbn.
  destruct (String.eqb_spec apiKey ""); [done|].
  rewrite bool_decide_eq_true_2 by done. cbn. by destruct w.
Qed.



(** X12. The answer of [checkQuota] when the count query answers: the
    request is allowed exactly when a positive number of calls remains, and
    the number that remains is never negative. A tier without a numeric
    ceiling is never allowed. *)
Theorem quota_allowed_iff_remaining env now uid t (sb : Supabase) q :
  checkQuota env now uid t sb = Returned q →
  usage_count_fails sb = false →
  (allowed q = true ↔ ∃ r, remaining q = Some r ∧ 0 < r)
  ∧ (∀ r, remaining q = Some r →
       0 ≤ r
       ∧ ∃ limit, tier_limit env t = Some limit
                  ∧ r = Z.max 0 (limit - recent_usage now uid sb))
  ∧ (tier_limit env t = None → allowed q = false ∧ remaining q = None).
Proof.
  unfold checkQuota. destruct (getSupabaseAdmin env); [|done]. cbn.
  intros Hq Hcnt. rewrite Hcnt in Hq.
  destruct (tier_limit env t) as [limit|]; injection Hq as <-; cbn.
  - split_and!; [|intros r [= <-]; split; [lia|by eauto]|done].
    rewrite bool_decide_eq_true. split.
    + intros Hlt. eexists. split; [done|lia].
    + intros (r & [= <-] & Hr). lia.
  - split_and!; [|done|done]. split; [done|]. by intros (r & [=] & _).
Qed.

(** X13. Only the caller's own calls of the last 60 seconds count: entries
    of other users and entries older than 60 seconds leave [recent_usage]
    as it is, and a call logged now raises it by one. *)
Theorem recent_usage_window env now uid (sb : Supabase) :
  (∀ e, (log_user_id e ≠ uid ∨ log_timestamp e < now - 60000) →
        recent_usage now uid (set_usage_log (usage_log sb ++ [e]) sb)
        = recent_usage now uid sb)
  ∧ (∀ endpoint sb', getSupabaseAdmin env = true →
        usage_insert_fails sb = false →
        logUsage env now uid endpoint sb = Returned sb' →
        recent_usage now uid sb' = recent_usage now uid sb + 1)
  ∧ ((∀ e, e ∈ usage_log sb → log_user_id e = uid →
           log_timestamp e < now - 60000) →
     recent_usage now uid sb = 0).
Proof.
  unfold recent_usage. split_and!.
  - intros e He. cbn. rewrite filter_app, length_app. cbn.
    rewrite decide_False by (intros [? ?]; destruct He; [done|lia]).
    cbn. lia.
  - intros endpoint sb' Henv Hins. unfold logUsage. rewrite Henv, Hins. cbn.
    intros [= <-]. cbn. rewrite filter_app, length_app. cbn.
    rewrite decide_True by (split; [done|lia]). cbn. lia.
  - intros Hold. induction (usage_log sb) as [|e l IH]; [done|].
    rewrite filter_cons, decide_False.
    + apply IH. intros e' He'. apply Hold. by right.
    + intros [Hu Ht]. specialize (Hold e ltac:(left) Hu). lia.
Qed.

End GateFacts.

(** * Further properties of the routes *)

Section StoreRouteFacts.
Context `{RT : Runtime}.

(** X14. Whatever the memory service is, an answer of the store route other
    than 201 is a 400 with code [BAD_REQUEST] or [VALIDATION_ERROR] and
    leaves the stores as they were: the service is called on the path to
    201 only. *)
Theorem store_route_rejects_without_storing
    (svc : string → MemoryService) req auth (st st' : Stores) resp :
  StoreRoute.handler svc req auth st = (st', Returned resp) →
  status resp ≠ 201 →
  st' = st ∧ status resp = 400 ∧ headers resp = [content_type_json]
  ∧ ∃ e, body resp = ErrorBody e ∧ details e = None
         ∧ (code e = "BAD_REQUEST" ∧ json req = None
            ∨ code e = "VALIDATION_ERROR" ∧ is_Some (json req)).
Proof.
  unfold StoreRoute.handler. intros H Hst.
  destruct (json req) as [b|].
  2:{ injection H as <- <-. split_and!; [done..|].
      eexists. split_and!; [done..|]. by left. }
  destruct (get_prop b "content") as [v|]; [|done].
  assert (∀ msg, (st, Returned (validation_error_response msg))
                 = (st', Returned resp) →
          st' = st ∧ status resp = 400 ∧ headers resp = [content_type_json]
          ∧ ∃ e, body resp = ErrorBody e ∧ details e = None
                 ∧ (code e = "BAD_REQUEST" ∧ Some b = None
                    ∨ code e = "VALIDATION_ERROR" ∧ is_Some (Some b))) as Hbad.
  { intros msg [= <- <-]. split_and!; [done..|].
    eexists. split_and!; [done..|]. right. by eauto. }
  destruct v as [| | | |c| |]; try (by eapply Hbad).
  destruct (String.eqb c ""); [by eapply Hbad|].
  case_decide; [by eapply Hbad|].
  destruct (truthy _ && negb _); [by eapply Hbad|].
  assert (∀ imp,
            match svc_store (svc (userId auth)) c (prop b "type") imp
                            (prop b "metadata") st with
            | (st'0, Returned r) =>
                (st'0, Returned (json_response (StoreBody r) 201))
            | (st'0, Thrown e) => (st'0, Thrown e)
            end ≠ (st', Returned resp)) as Hrun.
  { intros imp Heq.
    destruct (svc_store (svc (userId auth)) c (prop b "type") imp
                        (prop b "metadata") st) as [st0 [r|e]]; by simplify_eq. }
  destruct (prop b "importance") as [| | |q| | |];
    try (by eapply Hbad); try (by apply Hrun in H).
  case_decide; [by eapply Hbad|by apply Hrun in H].
Qed.


(** The type column of a record stored with a type value that passed the
    check of the route. *)
Lemma checked_type_bound (ty : JsVal) ty' :
  truthy ty && negb (valid_type ty) = false →
  bind_text (match ty with JUndefined => JStr "factual" | v => v end) = Some ty' →
  match ty' with
  | Some t => t ∈ validTypes ∨ t = ""
              ∨ ∃ q, (q == 0)%Q ∧ t = sql_text_of_number q
  | None => True
  end.
Proof.
  destruct ty as [| |bb|q|t| |]; cbn; intros Hty [= <-]; try done.
  - left. unfold validTypes. set_solver.
  - right. right. exists q. split; [|done].
    rewrite andb_true_r in Hty. apply negb_false_iff in Hty.
    by apply Qeq_bool_iff.
  - destruct (decide (t = "")) as [Ht|Ht]; [right; by left|].
    apply String.eqb_neq in Ht. rewrite Ht in Hty. cbn in Hty.
    apply negb_false_iff, bool_decide_eq_true in Hty. by left.
Qed.

(** X15. What the store route lets into a store. After a 201 the returned
    id is the fresh UUID and the user's database holds a record under it
    whose content is a non-empty string of at most 10000 characters, whose
    importance lies in [0,1], whose activation is 1 and whose type, when it
    is not NULL, is one of the five types or comes from a falsy body value
    (the empty string or the number 0), which the type check lets through. *)
Theorem store_route_stores_validated_record
    amb req auth (st st' : Stores) resp :
  StoreRoute.handler (getMemoryService amb) req auth st = (st', Returned resp) →
  status resp = 201 →
  body resp = StoreBody {| store_id := amb_uuid amb; success := true |}
  ∧ ∃ r, memories (getDb (userId auth) st') !! amb_uuid amb = Some r
         ∧ content r ≠ ""
         ∧ Z.of_nat (String.length (content r)) ≤ 10000
         ∧ (0 <= importance r <= 1)%Q
         ∧ activation r = 1%Q
         ∧ created_at r = amb_iso_now amb
         ∧ match type r with
           | Some t => t ∈ validTypes ∨ t = ""
                       ∨ ∃ q, (q == 0)%Q ∧ t = sql_text_of_number q
           | None => True
           end.
Proof.
  unfold StoreRoute.handler. intros H Hst.
  destruct (json req) as [b|]; [|by simplify_eq].
  destruct (get_prop b "content") as [[| | | |c| |]|]; try (by simplify_eq).
  destruct (String.eqb_spec c "") as [|Hc]; [by simplify_eq|].
  case_decide as Hlen; [by simplify_eq|].
  destruct (truthy (prop b "type") && negb (valid_type (prop b "type")))
    eqn:Hty; [by simplify_eq|].
  set (goal := body resp = StoreBody {| store_id := amb_uuid amb; success := true |} ∧ _).
  assert (∀ imp, (0 <= default 0.5 imp <= 1)%Q →
            match svc_store (getMemoryService amb (userId auth)) c
                            (prop b "type") imp (prop b "metadata") st with
            | (st'0, Returned r) =>
                (st'0, Returned (json_response (StoreBody r) 201))
            | (st'0, Thrown e) => (st'0, Thrown e)
            end = (st', Returned resp) → goal) as Hrun.
  { intros imp Himp. cbn [svc_store getMemoryService]. unfold on_user_db.
    destruct (store _ _ _ _ _ _ _) as [db' [r|e]] eqn:Hstore; [|done].
    intros [= <- <-].
    destruct (store_Returned _ _ _ _ _ _ _ _ _ Hstore)
      as (ty' & Hbind & _ & -> & Hmem).
    unfold goal. split; [done|].
    eexists. unfold getDb at 1. unfold Stores in *.
    rewrite lookup_insert_eq. cbn [default from_option id].
    rewrite Hmem, lookup_insert_eq.
    split; [done|]. cbn [content importance activation created_at type].
    split; [done|]. split; [lia|]. split; [exact Himp|].
    split; [done|]. split; [done|].
    by eapply checked_type_bound. }
  destruct (prop b "importance") as [| | |q| | |]; try (by simplify_eq).
  - apply (Hrun None); [cbn; lra|done].
  - case_decide as Hq; [by simplify_eq|]. apply (Hrun (Some q)); [|done].
    cbn. split; apply Qnot_lt_le; tauto.
Qed.

(** X16. A well-formed store request is stored. With a non-empty content of
    at most 10000 characters, a type that is absent or one of the five, an
    importance that is absent or in [0,1], and a UUID that is free in the
    user's database, the route answers 201 with that id, and the database
    then holds the record with the given content, the type (default
    "factual"), the importance (default 0.5), activation 1 and no
    last-accessed time, beside the records it had. *)
Theorem store_route_accepts_valid_request
    amb req auth (st : Stores) b c tyv t impv q :
  json req = Some b →
  get_prop b "content" = Some (JStr c) →
  c ≠ "" → Z.of_nat (String.length c) ≤ 10000 →
  prop b "type" = tyv →
  (tyv = JUndefined ∧ t = "factual" ∨ tyv = JStr t ∧ t ∈ validTypes) →
  prop b "importance" = impv →
  (impv = JUndefined ∧ q = 0.5%Q ∨ impv = JNum q ∧ (0 <= q <= 1)%Q) →
  memories (getDb (userId auth) st) !! amb_uuid amb = None →
  ∃ st' r,
    StoreRoute.handler (getMemoryService amb) req auth st
      = (st', Returned (json_response
                          (StoreBody {| store_id := amb_uuid amb;
                                        success := true |}) 201))
    ∧ memories (getDb (userId auth) st') !! amb_uuid amb = Some r
    ∧ content r = c ∧ type r = Some t ∧ importance r = q
    ∧ activation r = 1%Q ∧ last_accessed r = None
    ∧ created_at r = amb_iso_now amb
    ∧ ∀ k, k ≠ amb_uuid amb →
           memories (getDb (userId auth) st') !! k
           = memories (getDb (userId auth) st) !! k.
Proof.
  intros Hjson Hc Hne Hlen Hty Htyv Himp Himpv Hfree.
  unfold StoreRoute.handler. rewrite Hjson, Hc.
  destruct (String.eqb_spec c "") as [|_]; [done|].
  rewrite decide_False by lia. rewrite Hty, Himp.
  assert (truthy tyv && negb (valid_type tyv) = false) as ->.
  { destruct Htyv as [[-> _]|[-> Ht]]; [done|].
    cbn. rewrite bool_decide_eq_true_2 by done. by rewrite andb_false_r. }
  assert (∀ imp, default 0.5%Q imp = q →
            ∃ st' r,
              match svc_store (getMemoryService amb (userId auth)) c tyv imp
                              (prop b "metadata") st with
              | (st'0, Returned r) =>
                  (st'0, Returned (json_response (StoreBody r) 201))
              | (st'0, Thrown e) => (st'0, Thrown e)
              end
              = (st', Returned (json_response
                                  (StoreBody {| store_id := amb_uuid amb;
                                                success := true |}) 201))
              ∧ memories (getDb (userId auth) st') !! amb_uuid amb = Some r
              ∧ content r = c ∧ type r = Some t ∧ importance r = q
              ∧ activation r = 1%Q ∧ last_accessed r = None
              ∧ created_at r = amb_iso_now amb
              ∧ ∀ k, k ≠ amb_uuid amb →
                     memories (getDb (userId auth) st') !! k
                     = memories (getDb (userId auth) st) !! k) as Hrun.
  { intros imp Hq. cbn [svc_store getMemoryService]. unfold on_user_db, store.
    assert (bind_text match tyv with JUndefined => JStr "factual" | v => v end
            = Some (Some t)) as ->.
    { by destruct Htyv as [[-> ->]|[-> _]]. }
    rewrite Hfree. eexists _, _. split; [reflexivity|].
    unfold getDb at 1 3. unfold Stores in *. rewrite lookup_insert_eq.
    cbn. rewrite lookup_insert_eq. split_and!; try done.
    intros k Hk. unfold getDb at 1. unfold Stores in *.
    rewrite lookup_insert_eq. cbn [default from_option id memories].
    by rewrite lookup_insert_ne. }
  destruct Himpv as [[-> ->]|[-> Hq]].
  - by apply (Hrun None).
  - rewrite decide_False by (intros [?|?]; lra). by apply (Hrun (Some q)).
Qed.

End StoreRouteFacts.

Section RecallRouteValidation.
Context `{RT : Runtime}.

(** X17. Whatever the memory service is, an answer of the recall route
    other than 200 is a 400 with code [BAD_REQUEST] or [VALIDATION_ERROR]
    and leaves the stores as they were; and a body whose [limit] is a number
    below 1 or above 100 is always answered that way. *)
Theorem recall_route_rejects_without_searching
    (svc : string → MemoryService) req auth (st : Stores) :
  (∀ st' resp,
     RecallRoute.handler svc req auth st = (st', Returned resp) →
     status resp ≠ 200 →
     st' = st ∧ status resp = 400 ∧ headers resp = [content_type_json]
     ∧ ∃ e, body resp = ErrorBody e ∧ details e = None
            ∧ (code e = "BAD_REQUEST" ∧ json req = None
               ∨ code e = "VALIDATION_ERROR" ∧ is_Some (json req)))
  ∧ (∀ b query q,
       json req = Some b → get_prop b "query" = Some (JStr query) →
       prop b "limit" = JNum q → (q < 1 ∨ 100 < q)%Q →
       ∃ e, RecallRoute.handler svc req auth st
              = (st, Returned {| status := 400; body := ErrorBody e;
                                 headers := [content_type_json] |})
            ∧ code e = "VALIDATION_ERROR").
Proof.
  split.
  - unfold RecallRoute.handler. intros st' resp H Hst.
    destruct (json req) as [b|].
    2:{ injection H as <- <-. split_and!; [done..|].
        eexists. split_and!; [done..|]. by left. }
    destruct (get_prop b "query") as [v|]; [|done].
    assert (∀ msg, (st, Returned (validation_error_response msg))
                   = (st', Returned resp) →
            st' = st ∧ status resp = 400 ∧ headers resp = [content_type_json]
            ∧ ∃ e, body resp = ErrorBody e ∧ details e = None
                   ∧ (code e = "BAD_REQUEST" ∧ Some b = None
                      ∨ code e = "VALIDATION_ERROR" ∧ is_Some (Some b)))
      as Hbad.
    { intros msg [= <- <-]. split_and!; [done..|].
      eexists. split_and!; [done..|]. right. by eauto. }
    destruct v as [| | | |query| |]; try (by eapply Hbad).
    destruct (String.eqb query ""); [by eapply Hbad|].
    assert (∀ limit,
              match check_types (prop b "types") with
              | inr msg => (st, Returned (validation_error_response msg))
              | inl types =>
                  match svc_recall (svc (userId auth)) query limit types st with
                  | (st'0, Returned r) =>
                      (st'0, Returned (json_response (RecallBody r) 200))
                  | (st'0, Thrown e) => (st'0, Thrown e)
                  end
              end = (st', Returned resp) →
              st' = st ∧ status resp = 400 ∧ headers resp = [content_type_json]
              ∧ ∃ e, body resp = ErrorBody e ∧ details e = None
                     ∧ (code e = "BAD_REQUEST" ∧ Some b = None
                        ∨ code e = "VALIDATION_ERROR" ∧ is_Some (Some b)))
      as Hrun.
    { intros limit Heq.
      destruct (check_types (prop b "types")) as [types|msg];
        [|by eapply Hbad].
      destruct (svc_recall (svc (userId auth)) query limit types st)
        as [st0 [r|e]]; by simplify_eq. }
    destruct (prop b "limit") as [| | |q| | |];
      try (by eapply Hbad); try (by eapply Hrun).
    case_decide; [by eapply Hbad|by eapply Hrun].
  - intros b query q Hjson Hq Hlim Hout. unfold RecallRoute.handler.
    rewrite Hjson, Hq, Hlim.
    destruct (String.eqb query ""); [by eexists|].
    rewrite decide_True by done. by eexists.
Qed.

End RecallRouteValidation.

(** * Key generation *)

Section KeyFacts.
Context `{RT : Runtime}.

Lemma string_length_app (a b : string) :
  String.length (a +:+ b) = (String.length a + String.length b)%nat.
Proof.
  induction a as [|c a IH]; [done|].
  change (String c a +:+ b) with (String c (a +:+ b)). cbn. by rewrite IH.
Qed.

Lemma hex_of_bytes_length l :
  String.length (hex_of_bytes l) = (2 * length l)%nat.
Proof.
  induction l as [|b l IH]; [done|].
  cbn [hex_of_bytes]. rewrite string_length_app, IH. cbn. lia.
Qed.

(** The value of a hexadecimal digit. *)
Lemma hex_digit_value n :
  (n < 16)%N →
  (let k := N_of_ascii (hex_digit n) in
   if k <? 58 then k - 48 else k - 87)%N = n.
Proof.
  intros Hn. unfold hex_digit. cbv zeta.
  destruct (N.ltb_spec n 10).
  - rewrite N_ascii_embedding by lia.
    destruct (N.ltb_spec (48 + n) 58); lia.
  - rewrite N_ascii_embedding by lia.
    destruct (N.ltb_spec (87 + n) 58); lia.
Qed.

Lemma hex_digit_inj n m :
  (n < 16)%N → (m < 16)%N → hex_digit n = hex_digit m → n = m.
Proof.
  intros Hn Hm Heq.
  rewrite <-(hex_digit_value n Hn), <-(hex_digit_value m Hm). by rewrite Heq.
Qed.

Lemma hex_byte_inj b1 b2 : hex_byte b1 = hex_byte b2 → b1 = b2.
Proof.
  unfold hex_byte. intros [= Hhi Hlo].
  pose proof (Byte.to_N_bounded b1). pose proof (Byte.to_N_bounded b2).
  apply hex_digit_inj in Hhi;
    [|apply N.Div0.div_lt_upper_bound; lia..].
  apply hex_digit_inj in Hlo; [|apply N.mod_lt; lia..].
  assert (Byte.to_N b1 = Byte.to_N b2) as Heq.
  { rewrite (N.div_mod (Byte.to_N b1) 16), (N.div_mod (Byte.to_N b2) 16) by lia.
    by rewrite Hhi, Hlo. }
  apply (f_equal Byte.of_N) in Heq. rewrite !Byte.of_to_N in Heq. congruence.
Qed.

Lemma hex_of_bytes_inj l1 l2 : hex_of_bytes l1 = hex_of_bytes l2 → l1 = l2.
Proof.
  revert l2. induction l1 as [|b1 l1 IH]; intros [|b2 l2]; cbn; try done.
  intros [= H1 H2 Hrest].
  f_equal; [apply hex_byte_inj; unfold hex_byte; congruence|by apply IH].
Qed.

(** X18. A key that [generateApiKey] returns is ["bcb_"] followed by two
    lower-case hexadecimal digits per random byte, different bytes giving
    different keys. Unless its digest collides with a stored one or it
    equals the test key, [validateApiKey] afterwards accepts it and returns
    the user and tier it was created for when the key lookup answers; when
    the lookup fails it answers "Invalid API key" for this key as for any
    other. *)
Theorem generated_key_validates
    env now now' keyBytes new_id uid t name (sb sb' : Supabase) key id :
  generateApiKey env now keyBytes (inl new_id) uid t name sb
    = (sb', Returned (key, id)) →
  TEST_API_KEY env ≠ Some key →
  (∀ k, k ∈ api_keys sb → key_hash k ≠ sha256_hex key) →
  key = "bcb_" +:+ hex_of_bytes keyBytes ∧ id = new_id
  ∧ String.length key = (4 + 2 * length keyBytes)%nat
  ∧ (∀ keyBytes', "bcb_" +:+ hex_of_bytes keyBytes' = key →
                  keyBytes' = keyBytes)
  ∧ if key_select_fails sb
    then validateApiKey env now' key sb'
         = (sb', Returned {| valid := false; user := None;
                             validation_error := Some "Invalid API key" |})
    else ∃ sb'', validateApiKey env now' key sb'
                 = (sb'', Returned {| valid := true;
                                      user := Some {| userId := uid; tier := t |};
                                      validation_error := None |}).
Proof.
  unfold generateApiKey.
  destruct (getSupabaseAdmin env) eqn:Henv; [|done]. cbn.
  intros [= <- <- <-] Htest Hfresh.
  split_and!; [done..| | |].
  - rewrite string_length_app, hex_of_bytes_length. done.
  - intros keyBytes' [= Heq]. by apply hex_of_bytes_inj.
  - unfold validateApiKey.
    rewrite bool_decide_eq_false_2, andb_false_r by done.
    rewrite Henv. cbn. destruct (key_select_fails sb); [done|].
    rewrite filter_app.
    assert (filter (λ k, key_hash k = sha256_hex ("bcb_" +:+ hex_of_bytes keyBytes))
                   (api_keys sb) = []) as ->.
    { induction (api_keys sb) as [|k l IH]; [done|].
      rewrite filter_cons, decide_False by (apply Hfresh; left).
      apply IH. intros k' Hk'. apply Hfresh. by right. }
    cbn. rewrite decide_True by done. cbn. by eexists.
Qed.

End KeyFacts.

(** * Statistics *)

Section StatsFacts.
Context `{RT : Runtime}.

(** Counting in the table and in its listing agree. *)
Lemma size_filter_listing (P : string * MemoryRow → Prop)
    `{!∀ x, Decision (P x)} (m : gmap string MemoryRow) :
  size (filter P m) = length (filter P (map_to_list m)).
Proof.
  induction m as [|k r m Hk Hfirst IH] using map_first_key_ind.
  - by rewrite map_filter_empty, map_to_list_empty.
  - rewrite (map_to_list_insert_first_key _ _ _ Hk Hfirst).
    rewrite filter_cons. destruct (decide (P (k, r))) as [HP|HP].
    + rewrite map_filter_insert_True by done.
      rewrite map_size_insert_None by (by rewrite map_lookup_filter, Hk).
      cbn. by rewrite IH.
    + rewrite map_filter_insert_not'; [done|done|].
      intros y Hy. congruence.
Qed.

Lemma filter_fmap_type (t : option string) (rows : list (string * MemoryRow)) :
  length (filter (λ t', t' = t) ((λ kv, type kv.2) <$> rows))
  = length (filter (λ kv : string * MemoryRow, type kv.2 = t) rows).
Proof.
  induction rows as [|kv rows IH]; [done|].
  rewrite fmap_cons, !filter_cons.
  destruct (decide (type kv.2 = t)); cbn; by rewrite IH.
Qed.

(** The counter a key other than "null" ends with. *)
Lemma by_type_fold_lookup (cnt : option string → Z) keys
    (m0 : gmap string Z) k :
  k ≠ "null" →
  foldl (λ acc (g : option string * Z), <[type_key g.1 := g.2]> acc) m0
        ((λ t, (t, cnt t)) <$> keys) !! k
  = if decide (Some k ∈ keys) then Some (cnt (Some k)) else m0 !! k.
Proof.
  intros Hk. induction keys as [|t0 keys IH] using rev_ind.
  { cbn. by rewrite decide_False by apply not_elem_of_nil. }
  rewrite fmap_app, foldl_app. cbn.
  destruct (decide (type_key t0 = k)) as [Heq|Hne].
  - assert (t0 = Some k) as ->.
    { destruct t0 as [s|]; cbn in Heq; congruence. }
    rewrite lookup_insert_eq.
    rewrite decide_True; [done|]. apply elem_of_app. right. by left.
  - rewrite lookup_insert_ne by done. rewrite IH.
    destruct (decide (Some k ∈ keys)) as [Hin|Hin].
    + rewrite decide_True; [done|]. apply elem_of_app. by left.
    + rewrite decide_False; [done|].
      intros [?|Hl%list_elem_of_singleton]%elem_of_app; [done|].
      subst t0. by apply Hne.
Qed.

Lemma length_filter_zero {A} (P : A → Prop) `{!∀ x, Decision (P x)} l :
  (∀ x, x ∈ l → ¬ P x) → length (filter P l) = 0%nat.
Proof.
  induction l as [|x l IH]; intros Hall; [done|].
  rewrite filter_cons, decide_False by (apply Hall; left).
  apply IH. intros y Hy. apply Hall. by right.
Qed.

(** X19. [stats] counts the records: [total_memories] is the number of
    records, and for each of the five fixed types [by_type] holds the
    number of records of that type, zero included. When every record has
    one of the five types, the five counts add up to the total. *)
Theorem stats_counts_records (db : Db) :
  total_memories (Statistics.stats db) = Z.of_nat (size (memories db))
  ∧ (∀ t, t ∈ validTypes →
          by_type (Statistics.stats db) !! t = Some (records_of_type t db))
  ∧ ((∀ k r, memories db !! k = Some r →
             ∃ t, type r = Some t ∧ t ∈ validTypes) →
     total_memories (Statistics.stats db)
     = records_of_type "factual" db + records_of_type "relational" db
       + records_of_type "procedural" db + records_of_type "episodic" db
       + records_of_type "semantic" db).
Proof.
  split; [done|]. split.
  - intros t Ht. cbn. unfold count_by_type, records_of_type.
    set (rows := map_to_list (memories db)).
    set (tys := (λ kv : string * MemoryRow, type kv.2) <$> rows).
    rewrite (by_type_fold_lookup
               (λ t, Z.of_nat (length (filter (λ t', t' = t) tys)))).
    2:{ intros ->. unfold validTypes in Ht.
        repeat (apply elem_of_cons in Ht as [Ht|Ht]; [done|]).
        by apply elem_of_nil in Ht. }
    cbv beta. rewrite size_filter_listing. fold rows.
    unfold tys. rewrite filter_fmap_type. fold tys.
    case_decide as Hin; [done|].
    rewrite length_filter_zero.
    + unfold validTypes in Ht. unfold byType0.
      repeat (apply elem_of_cons in Ht as [->|Ht]; [done|]).
      by apply elem_of_nil in Ht.
    + intros kv Hkv Hty. apply Hin. apply elem_of_app. right.
      apply list_elem_of_filter. split; [done|].
      apply elem_of_remove_dups. unfold tys. rewrite <-Hty.
      by apply (list_elem_of_fmap_2 (λ kv : string * MemoryRow, type kv.2)).
  - intros Hall. cbn. unfold records_of_type.
    rewrite !size_filter_listing, <-length_map_to_list.
    assert (∀ kv, kv ∈ map_to_list (memories db) →
                  ∃ t, type kv.2 = Some t ∧ t ∈ validTypes) as Hrows.
    { intros [k r] Hkr%elem_of_map_to_list. by eapply Hall. }
    induction (map_to_list (memories db)) as [|kv rows IH]; [done|].
    rewrite !filter_cons.
    destruct (Hrows kv) as (t & Hty & Ht); [by left|].
    assert (∀ kv', kv' ∈ rows → ∃ t, type kv'.2 = Some t ∧ t ∈ validTypes)
      as Hrows' by (intros kv' Hkv'; apply Hrows; by right).
    specialize (IH Hrows').
    rewrite Hty. unfold validTypes in Ht.
    repeat (apply elem_of_cons in Ht as [->|Ht];
            [repeat case_decide; simplify_eq; cbn [length]; lia|]).
    by apply elem_of_nil in Ht.
Qed.

(** X20. [total_memories] follows the operations: a [store] that returns
    raises it by one, a [recall] leaves it as it is whatever its outcome,
    and after [consolidate] it is the [memories_after] the call reported,
    the count before minus the forgotten records. No operation changes what
    [stats] reports other than through the table. *)
Theorem stats_total_tracks_operations (db : Db) :
  (∀ uuid now c ty imp md db' resp,
     store uuid now c ty imp md db = (db', Returned resp) →
     total_memories (Statistics.stats db') = total_memories (Statistics.stats db) + 1)
  ∧ (∀ now t0 t1 query limit types,
       total_memories (Statistics.stats (recall now t0 t1 query limit types db).1)
       = total_memories (Statistics.stats db))
  ∧ total_memories (Statistics.stats (consolidate db).1)
    = memories_after (stats (consolidate db).2)
  ∧ total_memories (Statistics.stats (consolidate db).1)
    = total_memories (Statistics.stats db) - forgotten (stats (consolidate db).2).
Proof.
  split_and!.
  - intros uuid now c ty imp md db' resp Hstore.
    destruct (store_Returned _ _ _ _ _ _ _ _ _ Hstore)
      as (ty' & _ & Hfree & _ & Hmem).
    cbn. rewrite Hmem, map_size_insert_None by done. lia.
  - intros now t0 t1 query limit types. cbn. f_equal.
    rewrite <-!size_dom. f_equal.
    rewrite recall_memories. destruct (search _ _ _ _); [|done].
    apply touch_all_dom.
  - done.
  - pose proof (consolidate_sizes db) as Hsz. cbn in *.
    rewrite Hsz, Nat2Z.inj_add. symmetry. apply Z.add_simpl_l.
Qed.

Lemma Qsum_bounds (l : list Q) :
  (∀ x, x ∈ l → (0 <= x <= 1)%Q) →
  (0 <= Qsum l <= inject_Z (Z.of_nat (length l)))%Q.
Proof.
  induction l as [|x l IH]; intros Hall; [split; by vm_compute|].
  destruct (Hall x) as [Hx0 Hx1]; [by left|].
  destruct IH as [H0 H1]; [intros y Hy; apply Hall; by right|].
  cbn [Qsum foldr length]. fold (Qsum l).
  rewrite Nat2Z.inj_succ, <-Z.add_1_l, inject_Z_plus.
  change (inject_Z 1) with 1%Q. lra.
Qed.

(** X21. [avg_importance] is the mean of the importances, so it lies in
    [0,1] when every record's importance does (the store route admits no
    other); and on an empty table [stats] reports no record, zero for each
    of the five types, no oldest and no newest time, and the average 0. *)
Theorem stats_average_and_empty (db : Db) :
  ((∀ k r, memories db !! k = Some r → (0 <= importance r <= 1)%Q) →
   (0 <= avg_importance (Statistics.stats db) <= 1)%Q)
  ∧ (memories db = ∅ →
     Statistics.stats db = {| total_memories := 0; by_type := byType0;
                   oldest_memory := None; newest_memory := None;
                   avg_importance := 0 |}).
Proof.
  split.
  - intros Hall. cbn.
    set (l := (λ kv : string * MemoryRow, importance kv.2)
                <$> map_to_list (memories db)).
    assert (∀ x, x ∈ l → (0 <= x <= 1)%Q) as Hl.
    { intros x (kv & -> & Hkv)%list_elem_of_fmap. destruct kv as [k r].
      apply elem_of_map_to_list in Hkv. by eapply Hall. }
    destruct l as [|x l'] eqn:El; [cbn; lra|].
    rewrite <-El in *. unfold sql_avg. rewrite El. rewrite <-El.
    destruct (Qeq_bool _ 0); [lra|].
    pose proof (Qsum_bounds l Hl) as [H0 H1].
    assert (0 < inject_Z (Z.of_nat (length l)))%Q as Hn.
    { rewrite El. cbn [length]. rewrite Nat2Z.inj_succ.
      change 0%Q with (inject_Z 0). rewrite <-Zlt_Qlt. lia. }
    split.
    + apply Qle_shift_div_l; [done|]. lra.
    + apply Qle_shift_div_r; [done|]. lra.
  - intros Hempty. unfold Statistics.stats, count_by_type.
    rewrite Hempty, map_to_list_empty. done.
Qed.

Lemma foldl_min_spec x (l : list string) :
  let m := foldl (λ a b, if String.leb a b then a else b) x l in
  m ∈ x :: l ∧ ∀ y, y ∈ x :: l → String.le m y.
Proof.
  revert x. induction l as [|z l IH]; intros x; cbn.
  { split; [by left|]. intros y ->%list_elem_of_singleton. done. }
  destruct (IH (if String.leb x z then x else z)) as [Hin Hle].
  cbn in Hin, Hle. split.
  - apply elem_of_cons in Hin as [Hin|Hin]; [|by do 2 right].
    rewrite Hin. destruct (String.leb x z); [by left|right; by left].
  - intros y Hy.
    assert (String.le (if String.leb x z then x else z) x
            ∧ String.le (if String.leb x z then x else z) z) as [Hx Hz].
    { destruct (String.leb x z) eqn:E.
      - split; [done|]. unfold String.le. by rewrite E.
      - split; [|done]. destruct (total String.le x z) as [H|H]; [|done].
        unfold String.le in H. by rewrite E in H. }
    assert (String.le (foldl (λ a b, if String.leb a b then a else b)
                             (if String.leb x z then x else z) l)
                      (if String.leb x z then x else z)) as Hm
      by (apply Hle; by left).
    apply elem_of_cons in Hy as [->|Hy]; [by etrans|].
    apply elem_of_cons in Hy as [->|Hy]; [by etrans|].
    apply Hle. by right.
Qed.

Lemma foldl_max_spec x (l : list string) :
  let m := foldl (λ a b, if String.leb a b then b else a) x l in
  m ∈ x :: l ∧ ∀ y, y ∈ x :: l → String.le y m.
Proof.
  revert x. induction l as [|z l IH]; intros x; cbn.
  { split; [by left|]. intros y ->%list_elem_of_singleton. done. }
  destruct (IH (if String.leb x z then z else x)) as [Hin Hle].
  cbn in Hin, Hle. split.
  - apply elem_of_cons in Hin as [Hin|Hin]; [|by do 2 right].
    rewrite Hin. destruct (String.leb x z); [right; by left|by left].
  - intros y Hy.
    assert (String.le x (if String.leb x z then z else x)
            ∧ String.le z (if String.leb x z then z else x)) as [Hx Hz].
    { destruct (String.leb x z) eqn:E.
      - split; [|done]. unfold String.le. by rewrite E.
      - split; [done|]. destruct (total String.le x z) as [H|H]; [|done].
        unfold String.le in H. by rewrite E in H. }
    assert (String.le (if String.leb x z then z else x)
                      (foldl (λ a b, if String.leb a b then b else a)
                             (if String.leb x z then z else x) l)) as Hm
      by (apply Hle; by left).
    apply elem_of_cons in Hy as [->|Hy]; [by etrans|].
    apply elem_of_cons in Hy as [->|Hy]; [by etrans|].
    apply Hle. by right.
Qed.

(** X22. The times [stats] reports are creation times of records: the
    oldest is, in the byte order of the time stamps, at most every record's
    creation time, the newest at least, and a table with a record whose
    time stamp is not empty reports a newest time. *)
Theorem stats_oldest_and_newest (db : Db) :
  (∀ o, oldest_memory (Statistics.stats db) = Some o →
        (∃ k r, memories db !! k = Some r ∧ created_at r = o)
        ∧ ∀ k r, memories db !! k = Some r → String.le o (created_at r))
  ∧ (∀ n, newest_memory (Statistics.stats db) = Some n →
          (∃ k r, memories db !! k = Some r ∧ created_at r = n)
          ∧ ∀ k r, memories db !! k = Some r → String.le (created_at r) n)
  ∧ (∀ k r, memories db !! k = Some r → created_at r ≠ "" →
            is_Some (newest_memory (Statistics.stats db))).
Proof.
  cbn.
  set (l := (λ kv : string * MemoryRow, created_at kv.2)
              <$> map_to_list (memories db)).
  assert (∀ s, s ∈ l ↔ ∃ k r, memories db !! k = Some r ∧ created_at r = s)
    as Hl.
  { intros s. unfold l. rewrite list_elem_of_fmap. split.
    - intros ([k r] & -> & Hkr%elem_of_map_to_list). by eauto.
    - intros (k & r & Hkr & <-). exists (k, r). split; [done|].
      by apply elem_of_map_to_list. }
  assert (∀ o, or_undefined (sql_min l) = Some o →
            o ∈ l ∧ ∀ s, s ∈ l → String.le o s) as Hmin.
  { intros o. destruct l as [|x l']; [done|]. cbn.
    destruct (foldl_min_spec x l') as [Hin Hle].
    destruct (String.eqb _ ""); [done|]. by intros [= <-]. }
  assert (∀ n, or_undefined (sql_max l) = Some n →
            n ∈ l ∧ ∀ s, s ∈ l → String.le s n) as Hmax.
  { intros o. destruct l as [|x l']; [done|]. cbn.
    destruct (foldl_max_spec x l') as [Hin Hle].
    destruct (String.eqb _ ""); [done|]. by intros [= <-]. }
  split_and!.
  - intros o [Hin Hle]%Hmin. split; [by apply Hl|].
    intros k r Hkr. apply Hle, Hl. by eauto.
  - intros n [Hin Hle]%Hmax. split; [by apply Hl|].
    intros k r Hkr. apply Hle, Hl. by eauto.
  - intros k r Hkr Hne.
    assert (created_at r ∈ l) as Hin by (apply Hl; by eauto).
    destruct l as [|x l']; [by apply elem_of_nil in Hin|]. cbn.
    destruct (foldl_max_spec x l') as [_ Hle]. specialize (Hle _ Hin).
    destruct (String.eqb_spec
                (foldl (λ a b, if String.leb a b then b else a) x l') "")
      as [He|]; [|by eauto].
    rewrite He in Hle. exfalso. apply Hne.
    destruct (created_at r); [done|]. by cbn in Hle.
Qed.

End StatsFacts.

(** ** The recall route: the limit it hands on *)

Section RecallRouteLimit.
Context `{RT : Runtime}.

(** X23. The limit of a recall request. A 200 answer of the recall route
    holds at most [limit] records, where [limit] is the number the body
    gives, which then lies between 1 and 100, or 10 when the body gives
    none ([undefined] or [null]); no other [limit] value reaches the
    service. *)
Theorem recall_route_answer_within_limit
    amb req auth (st st' : Stores) resp b :
  json req = Some b →
  RecallRoute.handler (getMemoryService amb) req auth st = (st', Returned resp) →
  status resp = 200 →
  ∃ r limit,
    body resp = RecallBody r
    ∧ (prop b "limit" = JNum limit
       ∨ (prop b "limit" = JUndefined ∨ prop b "limit" = JNull) ∧ limit = 10%Q)
    ∧ (1 <= limit <= 100)%Q
    ∧ (inject_Z (Z.of_nat (length (results r))) <= limit)%Q.
Proof.
  unfold RecallRoute.handler. intros -> H Hst.
  destruct (get_prop b "query") as [[| | | |query| |]|];
    try (by simplify_eq).
  destruct (String.eqb query ""); [by simplify_eq|].
  assert (∀ limit, (1 <= limit <= 100)%Q →
            match check_types (prop b "types") with
            | inr msg => (st, Returned (validation_error_response msg))
            | inl types =>
                match svc_recall (getMemoryService amb (userId auth))
                                 query limit types st with
                | (st', Returned r) =>
                    (st', Returned (json_response (RecallBody r) 200))
                | (st', Thrown e) => (st', Thrown e)
                end
            end = (st', Returned resp) →
            ∃ r, body resp = RecallBody r
              ∧ (inject_Z (Z.of_nat (length (results r))) <= limit)%Q) as Hrun.
  { intros limit Hlim Hcall.
    destruct (check_types _) as [types|msg]; [|by simplify_eq].
    cbn in Hcall. unfold on_user_db in Hcall.
    destruct (recall _ _ _ _ _ _ _) as [db' [r|e]] eqn:Hrec; [|by simplify_eq].
    injection Hcall as <- <-. exists r. split; [done|].
    apply (recall_length_le_limit _ _ _ _ _ _ _ _ _ Hrec). lra. }
  destruct (prop b "limit") as [| | |q| | |]; try (by simplify_eq).
  - destruct (Hrun 10%Q) as (r & Hb & Hlen); [lra|done|].
    exists r, 10%Q. split_and!; [done|right; by auto|lra|lra|done].
  - destruct (Hrun 10%Q) as (r & Hb & Hlen); [lra|done|].
    exists r, 10%Q. split_and!; [done|right; by auto|lra|lra|done].
  - case_decide as Hq; [by simplify_eq|].
    assert (1 <= q <= 100)%Q as Hlim by (split; apply Qnot_lt_le; tauto).
    destruct (Hrun q) as (r & Hb & Hlen); [done..|].
    exists r, q. split_and!; [done|by left|apply Hlim..|done].
Qed.

End RecallRouteLimit.

(** * The theorems at sample inputs *)

Lemma consolidate_decays_then_forgets_witness :
  memories sample_db !! "b" = Some (sample_row "user likes coffee" 0.0104)
  ∧ memories (consolidate sample_db).1 !! "b" = None.
Proof.
  split; [reflexivity|].
  exact (proj1 (consolidate_decays_then_forgets sample_db)
               "b" (sample_row "user likes coffee" 0.0104) eq_refl).
Defined.

Lemma decayed_db_reachable : reachable decayed_db.
Proof.
  unfold decayed_db. cbn [Nat.iter].
  do 12 apply reach_consolidate.
  unfold stored_db, first_db. do 2 apply reach_store. apply reach_new.
Defined.

Lemma activation_in_unit_interval_witness :
  reachable decayed_db
  ∧ ∀ k r, memories decayed_db !! k = Some r → (0 <= activation r <= 1)%Q.
Proof.
  split; [exact decayed_db_reachable|].
  exact (proj1 (activation_in_unit_interval decayed_db decayed_db_reachable)).
Defined.

(** The sample recall returns the record [id-1]. *)
Lemma sample_recall_returns :
  ∃ resp m, sample_recall = (sample_recall.1, Returned resp)
            ∧ m ∈ results resp ∧ Memory.id m = "id-1".
Proof.
  assert (∃ resp, sample_recall.2 = Returned resp
                  ∧ ∃ m, m ∈ results resp ∧ Memory.id m = "id-1")
    as (resp & H2 & m & Hin & Hid).
  { eexists. split; [vm_compute; reflexivity|].
    eexists. split; [left|reflexivity]. }
  exists resp, m. split_and!; [|exact Hin|exact Hid].
  rewrite <-H2. apply surjective_pairing.
Defined.

Lemma recall_boosts_returned_records_witness :
  ∃ resp m,
    sample_recall = (sample_recall.1, Returned resp) ∧ m ∈ results resp
    ∧ ∃ r r', memories decayed_db !! Memory.id m = Some r
              ∧ memories sample_recall.1 !! Memory.id m = Some r'
              ∧ last_accessed r' = Some "2026-02-01T00:00:00.000Z"
              ∧ activation r' = Qmin (activation r * 1.1) 1
              ∧ (activation r' <= 1)%Q
              ∧ (1 <= activation r → activation r' == 1)%Q
              ∧ (reachable decayed_db → activation r < 1 →
                 activation r < activation r')%Q.
Proof.
  destruct sample_recall_returns as (resp & m & Hcall & Hin & _).
  exists resp, m. split_and!; [exact Hcall|exact Hin|].
  exact (recall_boosts_returned_records _ _ _ _ _ _ _ _ _ _ Hcall Hin).
Defined.

Lemma recall_returns_values_read_before_update_witness :
  ∃ resp m,
    sample_recall = (sample_recall.1, Returned resp) ∧ m ∈ results resp
    ∧ ∃ r r', memories decayed_db !! Memory.id m = Some r
              ∧ memories sample_recall.1 !! Memory.id m = Some r'
              ∧ Memory.activation m = activation r
              ∧ Memory.last_accessed m = or_undefined (last_accessed r)
              ∧ (last_accessed r ≠ Some "" →
                 Memory.last_accessed m = last_accessed r)
              ∧ activation r' = Qmin (activation r * 1.1) 1
              ∧ last_accessed r' = Some "2026-02-01T00:00:00.000Z"
              ∧ (0 < activation r → activation r < 1 →
                 Memory.activation m < activation r')%Q.
Proof.
  destruct sample_recall_returns as (resp & m & Hcall & Hin & _).
  exists resp, m. split_and!; [exact Hcall|exact Hin|].
  exact (recall_returns_values_read_before_update _ _ _ _ _ _ _ _ _ _ Hcall Hin).
Defined.

(** The search for "user" with limit 1 returns the record [a] alone. *)
Lemma top_recall_1_returns :
  ∃ resp, top_recall 1 = ((top_recall 1).1, Returned resp)
          ∧ Memory.id <$> results resp = ["a"].
Proof.
  assert (∃ resp, (top_recall 1).2 = Returned resp
                  ∧ Memory.id <$> results resp = ["a"]) as (resp & H2 & Hids).
  { eexists. split; [vm_compute; reflexivity|reflexivity]. }
  exists resp. split; [|exact Hids].
  rewrite <-H2. apply surjective_pairing.
Defined.

Lemma recall_respects_limit_and_types_witness :
  (∃ resp,
     sample_recall = (sample_recall.1, Returned resp)
     ∧ (∀ m, m ∈ results resp →
             ∃ t, Memory.type m = Some t ∧ t ∈ ["factual"]))
  ∧ (∃ resp,
       top_recall 1 = ((top_recall 1).1, Returned resp)
       ∧ size (filter (λ kv : string * MemoryRow,
                         contains "user" (content kv.2) = true)
                      (memories sample_db)) = 2%nat
       ∧ (0 <= 1)%Q
       ∧ (inject_Z (Z.of_nat (length (results resp))) <= 1)%Q).
Proof.
  split.
  - destruct sample_recall_returns as (resp & m & Hcall & _).
    exists resp. split; [exact Hcall|].
    intros m' Hm'.
    refine (proj2 (proj1 recall_respects_limit_and_types
                         _ _ _ _ _ _ _ _ _ Hcall)
                  ["factual"] m' eq_refl _ Hm').
    discriminate.
  - destruct top_recall_1_returns as (resp & Hcall & _).
    assert (0 <= 1)%Q as H01 by (vm_compute; discriminate).
    exists resp. split_and!; [exact Hcall|vm_compute; reflexivity|exact H01|].
    exact (proj1 (proj1 recall_respects_limit_and_types
                        _ _ _ _ _ _ _ _ _ Hcall) H01).
Defined.

Lemma sample_calls_keep_record :
  ∃ r', memories (run_calls sample_calls stored_db) !! "id-2" = Some r'.
Proof. eexists. vm_compute. reflexivity. Defined.

Lemma static_columns_never_change_witness :
  store "id-2" "2026-01-02T00:00:00.000Z" "user likes chess"
        (JStr "relational") (Some 0.8%Q) JUndefined first_db
    = (stored_db, Returned {| store_id := "id-2"; success := true |})
  ∧ ∃ r', memories (run_calls sample_calls stored_db) !! "id-2" = Some r'
          ∧ importance r' = 0.8%Q
          ∧ content r' = "user likes chess"
          ∧ Some (type r') = Some (Some "relational")
          ∧ metadata r' = None
          ∧ created_at r' = "2026-01-02T00:00:00.000Z".
Proof.
  assert (store "id-2" "2026-01-02T00:00:00.000Z" "user likes chess"
                (JStr "relational") (Some 0.8%Q) JUndefined first_db
          = (stored_db, Returned {| store_id := "id-2"; success := true |}))
    as Hstore by reflexivity.
  split; [exact Hstore|].
  destruct sample_calls_keep_record as [r' Hr'].
  exists r'. split; [exact Hr'|].
  exact (proj2 (proj2 (proj2 (static_columns_never_change (RT := simple_runtime))))
               _ _ _ _ _ _ _ _ _ sample_calls r' Hstore Hr').
Defined.

Lemma store_rejects_long_content_witness :
  json long_store_request
    = Some (JObj [("content", JStr long_content); ("type", JStr "factual")])
  ∧ 10000 < Z.of_nat (String.length long_content)
  ∧ StoreRoute.handler (getMemoryService sample_ambient) long_store_request alice
                  (stores (sample_world false))
    = (stores (sample_world false),
       Returned
         {| status := 400;
            body := ErrorBody
                      {| error := dq +:+ "content" +:+ dq
                                  +:+ " must be less than 10000 characters";
                         code := "VALIDATION_ERROR"; details := None |};
            headers := [content_type_json] |}).
Proof.
  assert (10000 < Z.of_nat (String.length long_content)) as Hlen
    by (vm_compute; reflexivity).
  split_and!; [reflexivity|exact Hlen|].
  exact (proj1 (store_rejects_long_content
                  (getMemoryService sample_ambient) long_store_request alice
                  (stores (sample_world false)) _ long_content
                  eq_refl eq_refl Hlen)).
Defined.

Lemma rate_limit_refuses_at_ceiling_witness :
  tier_limit (RT := simple_runtime) sample_env "free" = Some 2
  ∧ recent_usage 1000000 "alice" (sample_supabase false) = 2
  ∧ ∃ sb1 resp,
      withAuth sample_handler sample_env 1000000 consolidate_request
               (sample_world false)
        = ({| supabase := sb1; stores := stores (sample_world false) |},
           Returned resp)
      ∧ status resp = 429
      ∧ ("Retry-After", "60") ∈ headers resp
      ∧ ("X-RateLimit-Remaining", "0") ∈ headers resp.
Proof.
  assert (tier_limit (RT := simple_runtime) sample_env "free" = Some 2)
    as Hlim by reflexivity.
  assert (2 ≤ recent_usage 1000000 "alice" (supabase (sample_world false)))
    as Hused by (vm_compute; discriminate).
  split_and!; [exact Hlim|reflexivity|].
  destruct (rate_limit_refuses_at_ceiling
              sample_handler sample_env 1000000 consolidate_request
              (sample_world false) "secret" _ _ alice 2
              eq_refl eq_refl eq_refl eq_refl eq_refl eq_refl Hlim Hused)
    as (resp & e & Hw & _ & Hst & _ & _ & Hra & Hrem & _).
  eexists _, resp. split_and!; [exact Hw|exact Hst|exact Hra|exact Hrem].
Defined.

(** C9 as stated fails: while the count query is failing, a caller at the
    ceiling is served. *)
Lemma quota_outage_serves_caller_at_ceiling :
  extractBearerToken (authorization consolidate_request) = Some "secret"
  ∧ (validateApiKey (RT := simple_runtime) sample_env 1000000 "secret"
                    (sample_supabase true)).2
      = Returned {| valid := true; user := Some alice; validation_error := None |}
  ∧ tier_limit (RT := simple_runtime) sample_env (tier alice) = Some 2
  ∧ 2 ≤ recent_usage 1000000 (userId alice) (sample_supabase true)
  ∧ ∃ resp,
      (withAuth sample_handler sample_env 1000000 consolidate_request
                (sample_world true)).2 = Returned resp
      ∧ status resp = 200
      ∧ status resp ≠ 429.
Proof.
  split_and!; [reflexivity|reflexivity|reflexivity|by vm_compute|].
  eexists. split_and!; [vm_compute; reflexivity|reflexivity|done].
Qed.

Lemma quota_check_fails_open_witness :
  getSupabaseAdmin sample_env = true
  ∧ usage_count_fails (sample_supabase true) = true
  ∧ checkQuota (RT := simple_runtime) sample_env 1000000 "alice" "free"
               (sample_supabase true)
    = Returned {| allowed := true; remaining := Some 0 |}
  ∧ ∃ sb2,
      withAuth sample_handler sample_env 1000000 consolidate_request
               (sample_world true)
        = ({| supabase := sb2;
              stores := (sample_handler consolidate_request alice
                                        (stores (sample_world true))).1 |},
           Returned
             match (sample_handler consolidate_request alice
                                   (stores (sample_world true))).2 with
             | Returned response =>
                 set_header "X-RateLimit-Remaining" "0" response
             | Thrown _ =>
                 error_response "Internal server error" "INTERNAL_ERROR" 500
             end).
Proof.
  pose proof (quota_check_fails_open (RT := simple_runtime)
                sample_env 1000000 (sample_supabase true) eq_refl eq_refl)
    as [Hopen Hrun].
  split_and!; [reflexivity|reflexivity|exact (Hopen "alice" "free")|].
  destruct (Hrun sample_handler consolidate_request (sample_world true)
                 "secret" _ _ alice eq_refl eq_refl eq_refl eq_refl eq_refl)
    as (sb2 & _ & _ & Hw).
  exists sb2. exact Hw.
Defined.

(** * The further properties at sample inputs *)

Lemma stored_db_store :
  store "id-2" "2026-01-02T00:00:00.000Z" "user likes chess"
        (JStr "relational") (Some 0.8%Q) JUndefined first_db
    = (stored_db, Returned {| store_id := "id-2"; success := true |}).
Proof. reflexivity. Defined.

Lemma store_adds_one_record_witness :
  store "id-2" "2026-01-02T00:00:00.000Z" "user likes chess"
        (JStr "relational") (Some 0.8%Q) JUndefined first_db
    = (stored_db, Returned {| store_id := "id-2"; success := true |})
  ∧ memories first_db !! "id-2" = None
  ∧ size (memories stored_db) = S (size (memories first_db)).
Proof.
  split; [exact stored_db_store|].
  pose proof (store_adds_one_record _ _ _ _ _ _ _ _ _ stored_db_store)
    as (_ & _ & Hfree & _ & _ & Hsize).
  exact (conj Hfree Hsize).
Defined.

Lemma stored_db_has_id_2 : is_Some (memories stored_db !! "id-2").
Proof. eexists. vm_compute. reflexivity. Defined.

Lemma store_never_overwrites_witness :
  is_Some (memories stored_db !! "id-2")
  ∧ ∃ e, store "id-2" "2026-01-03T00:00:00.000Z" "again" JUndefined None
               JUndefined stored_db
         = (stored_db, Thrown e).
Proof.
  split; [exact stored_db_has_id_2|].
  exact (proj2 (store_never_overwrites "id-2" "2026-01-03T00:00:00.000Z"
                  "again" JUndefined None JUndefined stored_db)
               stored_db_has_id_2).
Defined.

Lemma recall_changes_returned_rows_only_witness :
  sample_recall = (sample_recall.1, sample_recall.2)
  ∧ dom (memories sample_recall.1) = dom (memories decayed_db)
  ∧ memories_fts sample_recall.1 = memories_fts decayed_db.
Proof.
  split; [apply surjective_pairing|].
  pose proof (recall_changes_returned_rows_only
                "2026-02-01T00:00:00.000Z" 0 3 "likes" 1 (Some ["factual"])
                decayed_db _ _ (surjective_pairing sample_recall))
    as (Hdom & Hfts & _).
  exact (conj Hdom Hfts).
Defined.

(** The search for "user" with limit 5 returns [a], then [b]. *)
Lemma top_recall_5_returns :
  ∃ resp, top_recall 5 = ((top_recall 5).1, Returned resp)
          ∧ Memory.id <$> results resp = ["a"; "b"]
          ∧ Memory.activation <$> results resp = [1%Q; 0.0104%Q].
Proof.
  assert (∃ resp, (top_recall 5).2 = Returned resp
                  ∧ Memory.id <$> results resp = ["a"; "b"]
                  ∧ Memory.activation <$> results resp = [1%Q; 0.0104%Q])
    as (resp & H2 & Hids).
  { eexists. split; [vm_compute; reflexivity|split; reflexivity]. }
  exists resp. split; [|exact Hids].
  rewrite <-H2. apply surjective_pairing.
Defined.

Lemma recall_results_sorted_distinct_witness :
  ∃ resp,
    top_recall 5 = ((top_recall 5).1, Returned resp)
    ∧ Memory.id <$> results resp = ["a"; "b"]
    ∧ Memory.activation <$> results resp = [1%Q; 0.0104%Q]
    ∧ StronglySorted (λ a b, Memory.activation b <= Memory.activation a)%Q
                     (results resp)
    ∧ NoDup (Memory.id <$> results resp).
Proof.
  destruct top_recall_5_returns as (resp & Hcall & Hids & Hacts).
  exists resp. split_and!; [exact Hcall|exact Hids|exact Hacts|..];
    apply (recall_results_sorted_distinct _ _ _ _ _ _ _ _ _ Hcall).
Defined.

(** With limit 1 the record [b] matches and is left out: the limit is
    reached, by a record that is at least as activated. *)
Lemma recall_returns_top_matches_witness :
  ∃ resp,
    top_recall 1 = ((top_recall 1).1, Returned resp)
    ∧ memories sample_db !! "b" = Some (sample_row "user likes coffee" 0.0104)
    ∧ contains "user" "user likes coffee" = true
    ∧ ("b" ∉ Memory.id <$> results resp)
    ∧ (inject_Z (Z.of_nat (length (results resp))) == 1)%Q
    ∧ ∀ m, m ∈ results resp → (0.0104 <= Memory.activation m)%Q.
Proof.
  destruct top_recall_1_returns as (resp & Hcall & Hids).
  assert (memories sample_db !! "b"
          = Some (sample_row "user likes coffee" 0.0104)) as Hb
    by reflexivity.
  assert ("b" ∉ Memory.id <$> results resp) as Hout.
  { rewrite Hids. intros Hin. apply list_elem_of_singleton in Hin.
    discriminate Hin. }
  exists resp. split_and!; [exact Hcall|exact Hb|reflexivity|exact Hout|..].
  all: destruct (recall_returns_top_matches _ _ _ _ _ _ _ _ _ Hcall)
         as (keep & Hkeep & Htop);
       apply (Htop "b" (sample_row "user likes coffee" 0.0104) Hb); [|exact Hout];
       destruct Hkeep as [(_ & m & Hm & ->)|(Hno & _)];
       [injection Hm as <-; reflexivity
       |exfalso; apply Hno; vm_compute; reflexivity].
Defined.

Lemma unrecalled_record_forgotten_at_90_witness :
  ∃ r, memories stored_db !! "id-2" = Some r
       ∧ activation r = 1%Q
       ∧ memories (Nat.iter 90 (λ d, (consolidate d).1) stored_db) !! "id-2"
         = None.
Proof.
  assert (∃ r, memories stored_db !! "id-2" = Some r ∧ activation r = 1%Q)
    as (r & Hr & Ha).
  { eexists. split; [vm_compute; reflexivity|reflexivity]. }
  exists r. split_and!; [exact Hr|exact Ha|].
  exact (proj2 (unrecalled_record_forgotten_at_90 stored_db "id-2" r Hr Ha)).
Defined.

Lemma secret_has_no_space : " "%char ∉ chars "secret".
Proof.
  intros H. repeat (apply elem_of_cons in H as [H|H]; [discriminate|]).
  by apply elem_of_nil in H.
Defined.

Lemma extractBearerToken_reads_token_witness :
  toLowerCase "Bearer" = "bearer"
  ∧ extractBearerToken (Some "Bearer secret") = Some "secret".
Proof.
  split; [reflexivity|].
  refine (proj2 extractBearerToken_reads_token "Bearer" "secret" ""
                eq_refl _ secret_has_no_space (or_introl eq_refl)).
  discriminate.
Defined.

Lemma missing_token_is_unauthorized_witness :
  extractBearerToken (authorization anonymous_request) = None
  ∧ ∃ e, withAuth sample_handler sample_env 1000000 anonymous_request
                  (sample_world false)
         = (sample_world false,
            Returned {| status := 401; body := ErrorBody e;
                       headers := [content_type_json] |})
       ∧ code e = "UNAUTHORIZED"
       ∧ error e = "Missing or invalid Authorization header".
Proof.
  split; [reflexivity|].
  exact (missing_token_is_unauthorized sample_handler sample_env 1000000
           anonymous_request (sample_world false) eq_refl).
Defined.

Lemma unknown_key_is_unauthorized_witness :
  extractBearerToken (authorization stranger_request) = Some "wrong"
  ∧ length (filter (λ k, key_hash k = sha256_hex (Runtime := simple_runtime) "wrong")
                   (api_keys (sample_supabase false))) = 0%nat
  ∧ ∃ e, withAuth sample_handler sample_env 1000000 stranger_request
                  (sample_world false)
         = (sample_world false,
            Returned {| status := 401; body := ErrorBody e;
                       headers := [content_type_json] |})
       ∧ code e = "UNAUTHORIZED"
       ∧ error e = "Invalid API key".
Proof.
  split; [reflexivity|]. split; [reflexivity|].
  refine (unknown_key_is_unauthorized sample_handler sample_env 1000000
            stranger_request (sample_world false) "wrong"
            eq_refl _ eq_refl _); discriminate.
Defined.

Lemma test_key_needs_supabase_witness :
  extractBearerToken (authorization test_request) = Some "test-key"
  ∧ TEST_API_KEY test_env = Some "test-key"
  ∧ getSupabaseAdmin test_env = false
  ∧ withAuth sample_handler test_env 1000000 test_request (sample_world false)
    = (sample_world false, Thrown "Missing Supabase environment variables").
Proof.
  split_and!; [reflexivity..|].
  refine (test_key_needs_supabase sample_handler test_env 1000000
            test_request (sample_world false) "test-key"
            eq_refl eq_refl _ eq_refl).
  discriminate.
Defined.




Lemma quota_allowed_iff_remaining_witness :
  checkQuota (RT := simple_runtime) sample_env 1000000 "alice" "free"
             (sample_supabase false)
    = Returned {| allowed := false; remaining := Some 0 |}
  ∧ usage_count_fails (sample_supabase false) = false
  ∧ ∀ r, Some 0 = Some r →
         0 ≤ r
         ∧ ∃ limit, tier_limit (RT := simple_runtime) sample_env "free" = Some limit
                    ∧ r = Z.max 0 (limit - recent_usage 1000000 "alice"
                                                        (sample_supabase false)).
Proof.
  split_and!; [reflexivity..|].
  exact (proj1 (proj2 (quota_allowed_iff_remaining
                         (RT := simple_runtime) sample_env 1000000 "alice" "free"
                         (sample_supabase false)
                         {| allowed := false; remaining := Some 0 |}
                         eq_refl eq_refl))).
Defined.

Lemma recent_usage_window_witness :
  getSupabaseAdmin sample_env = true
  ∧ ∃ sb', logUsage sample_env 1000000 "alice" "/api/v1/memory/stats"
                    (sample_supabase false) = Returned sb'
           ∧ recent_usage 1000000 "alice" sb'
             = recent_usage 1000000 "alice" (sample_supabase false) + 1.
Proof.
  split; [reflexivity|].
  eexists. split; [reflexivity|].
  exact (proj1 (proj2 (recent_usage_window sample_env 1000000 "alice"
                                           (sample_supabase false)))
               "/api/v1/memory/stats" _ eq_refl eq_refl eq_refl).
Defined.

Lemma store_route_rejects_without_storing_witness :
  ∃ resp,
    StoreRoute.handler (getMemoryService sample_ambient) bogus_type_request
                       alice (stores (sample_world false))
      = (stores (sample_world false), Returned resp)
    ∧ status resp ≠ 201
    ∧ status resp = 400
    ∧ ∃ e, body resp = ErrorBody e ∧ details e = None
           ∧ (code e = "BAD_REQUEST" ∧ json bogus_type_request = None
              ∨ code e = "VALIDATION_ERROR" ∧ is_Some (json bogus_type_request)).
Proof.
  eexists. split; [reflexivity|].
  assert (400 ≠ 201) as Hne by discriminate.
  split; [exact Hne|].
  pose proof (store_route_rejects_without_storing
                (getMemoryService sample_ambient) bogus_type_request alice
                (stores (sample_world false)) _ _ eq_refl Hne)
    as (_ & Hst & _ & He).
  exact (conj Hst He).
Defined.

Lemma good_store_request_stored :
  StoreRoute.handler (getMemoryService sample_ambient) good_store_request
                     alice (stores (sample_world false))
  = (python_stores,
     Returned (json_response
                 (StoreBody {| store_id := "id-9"; success := true |}) 201)).
Proof.
  transitivity
    (python_stores,
     (StoreRoute.handler (getMemoryService sample_ambient) good_store_request
                         alice (stores (sample_world false))).2).
  - apply surjective_pairing.
  - f_equal.
Defined.

Lemma store_route_stores_validated_record_witness :
  StoreRoute.handler (getMemoryService sample_ambient) good_store_request
                     alice (stores (sample_world false))
  = (python_stores,
     Returned (json_response
                 (StoreBody {| store_id := "id-9"; success := true |}) 201))
  ∧ ∃ r, memories (getDb "alice" python_stores) !! "id-9" = Some r
         ∧ content r ≠ ""
         ∧ Z.of_nat (String.length (content r)) ≤ 10000
         ∧ (0 <= importance r <= 1)%Q
         ∧ activation r = 1%Q.
Proof.
  split; [exact good_store_request_stored|].
  destruct (store_route_stores_validated_record
              sample_ambient good_store_request alice (stores (sample_world false)) python_stores _
              good_store_request_stored eq_refl)
    as (_ & r & Hr & Hc & Hlen & Himp & Hact & _).
  exists r. exact (conj Hr (conj Hc (conj Hlen (conj Himp Hact)))).
Defined.

Lemma store_route_accepts_valid_request_witness :
  memories (getDb "alice" (stores (sample_world false))) !! "id-9" = None
  ∧ ∃ st' r,
      StoreRoute.handler (getMemoryService sample_ambient) good_store_request
                         alice (stores (sample_world false))
        = (st', Returned (json_response
                            (StoreBody {| store_id := "id-9";
                                          success := true |}) 201))
      ∧ memories (getDb "alice" st') !! "id-9" = Some r
      ∧ content r = "User prefers Python" ∧ type r = Some "relational"
      ∧ importance r = 0.8%Q ∧ activation r = 1%Q.
Proof.
  split; [reflexivity|].
  assert ("User prefers Python" ≠ "") as Hc by discriminate.
  assert (Z.of_nat (String.length "User prefers Python") ≤ 10000)
    as Hlen by (vm_compute; discriminate).
  assert ("relational" ∈ validTypes) as Hty by (right; left).
  assert (0 <= 0.8 <= 1)%Q as Himp by (split; vm_compute; discriminate).
  destruct (store_route_accepts_valid_request
              sample_ambient good_store_request alice (stores (sample_world false)) good_store_body
              "User prefers Python" (JStr "relational") "relational"
              (JNum 0.8) 0.8%Q
              eq_refl eq_refl Hc Hlen eq_refl (or_intror (conj eq_refl Hty))
              eq_refl (or_intror (conj eq_refl Himp)) eq_refl)
    as (st' & r & Hh & Hr & Hcr & Htr & Hir & Har & _).
  exists st', r.
  split_and!; [exact Hh|exact Hr|exact Hcr|exact Htr|exact Hir|exact Har].
Defined.

Lemma recall_route_rejects_without_searching_witness :
  prop (recall_body 500) "limit" = JNum 500
  ∧ (500 < 1 ∨ 100 < 500)%Q
  ∧ ∃ e, RecallRoute.handler (getMemoryService sample_ambient)
                             (recall_request 500) alice python_stores
           = (python_stores,
              Returned {| status := 400; body := ErrorBody e;
                          headers := [content_type_json] |})
         ∧ code e = "VALIDATION_ERROR".
Proof.
  assert (500 < 1 ∨ 100 < 500)%Q as Hq by (right; reflexivity).
  split_and!; [reflexivity|exact Hq|].
  exact (proj2 (recall_route_rejects_without_searching
                  (getMemoryService sample_ambient) (recall_request 500)
                  alice python_stores)
               (recall_body 500) "Python" 500%Q eq_refl eq_refl eq_refl Hq).
Defined.

Lemma generated_key_is_new :
  ∀ k, k ∈ api_keys (sample_supabase false) →
       key_hash k ≠ sha256_hex (Runtime := simple_runtime) "bcb_0aff".
Proof.
  intros k Hk. apply list_elem_of_singleton in Hk. subst k. discriminate.
Defined.

Lemma generated_key_validates_witness :
  ∃ sb',
    generateApiKey (RT := simple_runtime) sample_env 1000000 key_bytes
                   (inl "k2") "bob" "pro" None (sample_supabase false)
      = (sb', Returned ("bcb_0aff", "k2"))
    ∧ String.length "bcb_0aff" = 8%nat
    ∧ ∃ sb'', validateApiKey (RT := simple_runtime) sample_env 1000005
                             "bcb_0aff" sb'
              = (sb'', Returned {| valid := true;
                                   user := Some {| userId := "bob"; tier := "pro" |};
                                   validation_error := None |}).
Proof.
  eexists. split; [reflexivity|].
  assert (TEST_API_KEY sample_env ≠ Some "bcb_0aff") as Htest by discriminate.
  destruct (generated_key_validates
              (RT := simple_runtime) sample_env 1000000 1000005 key_bytes
              "k2" "bob" "pro" None (sample_supabase false) _
              "bcb_0aff" "k2" eq_refl Htest generated_key_is_new)
    as (_ & _ & Hlen & _ & Hval).
  exact (conj Hlen Hval).
Defined.

Lemma first_db_memories :
  memories first_db
  = <["id-1" := {| content := "user likes tea"; type := Some "factual";
                   importance := 0.5; activation := 1;
                   created_at := "2026-01-01T00:00:00.000Z";
                   last_accessed := None; metadata := None |}]> ∅.
Proof. reflexivity. Defined.

Lemma first_db_typed :
  ∀ k r, memories first_db !! k = Some r →
         ∃ t, type r = Some t ∧ t ∈ validTypes.
Proof.
  intros k r. rewrite first_db_memories.
  intros [[_ <-]|[_ H]]%lookup_insert_Some; [|by rewrite lookup_empty in H].
  exists "factual". split; [reflexivity|left].
Defined.

Lemma stats_counts_records_witness :
  (∀ k r, memories first_db !! k = Some r →
          ∃ t, type r = Some t ∧ t ∈ validTypes)
  ∧ total_memories (Statistics.stats first_db)
    = records_of_type "factual" first_db + records_of_type "relational" first_db
      + records_of_type "procedural" first_db + records_of_type "episodic" first_db
      + records_of_type "semantic" first_db.
Proof.
  split; [exact first_db_typed|].
  exact (proj2 (proj2 (stats_counts_records first_db)) first_db_typed).
Defined.

Lemma stats_total_tracks_operations_witness :
  store "id-2" "2026-01-02T00:00:00.000Z" "user likes chess"
        (JStr "relational") (Some 0.8%Q) JUndefined first_db
    = (stored_db, Returned {| store_id := "id-2"; success := true |})
  ∧ total_memories (Statistics.stats stored_db)
    = total_memories (Statistics.stats first_db) + 1.
Proof.
  split; [exact stored_db_store|].
  exact (proj1 (stats_total_tracks_operations first_db)
               _ _ _ _ _ _ _ _ stored_db_store).
Defined.

Lemma first_db_importance :
  ∀ k r, memories first_db !! k = Some r → (0 <= importance r <= 1)%Q.
Proof.
  intros k r. rewrite first_db_memories.
  intros [[_ <-]|[_ H]]%lookup_insert_Some; [|by rewrite lookup_empty in H].
  split; vm_compute; discriminate.
Defined.

Lemma stats_average_and_empty_witness :
  (∀ k r, memories first_db !! k = Some r → (0 <= importance r <= 1)%Q)
  ∧ (0 <= avg_importance (Statistics.stats first_db) <= 1)%Q.
Proof.
  split; [exact first_db_importance|].
  exact (proj1 (stats_average_and_empty first_db) first_db_importance).
Defined.

Lemma stats_oldest_and_newest_witness :
  ∃ r, memories stored_db !! "id-2" = Some r
       ∧ created_at r ≠ ""
       ∧ is_Some (newest_memory (Statistics.stats stored_db)).
Proof.
  assert (∃ r, memories stored_db !! "id-2" = Some r ∧ created_at r ≠ "")
    as (r & Hr & Hne).
  { eexists. split; [vm_compute; reflexivity|discriminate]. }
  exists r. split_and!; [exact Hr|exact Hne|].
  exact (proj2 (proj2 (stats_oldest_and_newest stored_db)) "id-2" r Hr Hne).
Defined.

Lemma python_recall_answer :
  ∃ resp,
    RecallRoute.handler (getMemoryService sample_ambient) (recall_request 5)
                        alice python_stores
    = ((RecallRoute.handler (getMemoryService sample_ambient)
                            (recall_request 5) alice python_stores).1,
       Returned resp)
    ∧ status resp = 200.
Proof.
  assert (∃ resp,
            (RecallRoute.handler (getMemoryService sample_ambient)
                                 (recall_request 5) alice python_stores).2
            = Returned resp ∧ status resp = 200) as (resp & H2 & Hst).
  { eexists. split; [vm_compute; reflexivity|reflexivity]. }
  exists resp. split; [|exact Hst].
  rewrite <-H2. apply surjective_pairing.
Defined.

Lemma recall_route_answer_within_limit_witness :
  ∃ resp,
    RecallRoute.handler (getMemoryService sample_ambient) (recall_request 5)
                        alice python_stores
    = ((RecallRoute.handler (getMemoryService sample_ambient)
                            (recall_request 5) alice python_stores).1,
       Returned resp)
    ∧ status resp = 200
    ∧ ∃ r limit,
        body resp = RecallBody r
        ∧ (prop (recall_body 5) "limit" = JNum limit
           ∨ (prop (recall_body 5) "limit" = JUndefined
              ∨ prop (recall_body 5) "limit" = JNull) ∧ limit = 10%Q)
        ∧ (1 <= limit <= 100)%Q
        ∧ (inject_Z (Z.of_nat (length (results r))) <= limit)%Q.
Proof.
  destruct python_recall_answer as (resp & Hh & Hst).
  exists resp. split_and!; [exact Hh|exact Hst|].
  exact (recall_route_answer_within_limit
           sample_ambient (recall_request 5) alice python_stores _ resp
           (recall_body 5) eq_refl Hh Hst).
Defined.
